(** * Electricity bill tracker: a shallow embedding of [electricity_bill.py]

    The tracker is a PyQt5 window whose methods read widgets, update the
    in-memory ledger ([history_data]) and device list ([devices_data]) and
    rewrite three JSON files.  The embedding keeps the business logic of
    those methods and replaces the widgets by explicit arguments:

    - numbers: Python floats are taken as exact rationals [Q] (rounding,
      infinities and NaN are outside the model); Python ints are [Z];
    - [float(widget.text())] is an [option Q], [None] when [float] raises
      [ValueError];
    - a [QDate] is the calendar triple it displays, compared through its
      Julian day number as Qt does; the ["dd-MM-yyyy"] string of a ledger
      entry is represented by the [QDate] it parses to;
    - every method returns the new tracker together with the message boxes
      it opened, in order;
    - the disk holds, per file, what [json.load] would return, and whether
      the file can be opened for writing. *)

From Stdlib Require Import ZArith QArith Qabs Lia List Bool.
From Stdlib Require Import Ascii String Decimal DecimalString DecimalZ.
From Stdlib Require Import Permutation Sorted.
Import ListNotations.

#[local] Open Scope string_scope.
#[local] Open Scope Z_scope.

(** ** Python numbers and strings *)

(** [a < b] on floats. *)
Definition Qltb (a b : Q) : bool := negb (Qle_bool b a).

(** [str(n)] for an int. *)
Definition str (n : Z) : string := NilZero.string_of_int (Z.to_int n).

(** [int(s)] on a string made of an optional minus sign and decimal digits
    (what [str] and the format specs below produce); [None] stands for
    [ValueError]. *)
Definition int (s : string) : option Z :=
  option_map Z.of_int (NilZero.int_of_string s).

(** [f"{n:02d}"]: zero padded to width two, the sign counts in the width. *)
Definition format_02d (n : Z) : string :=
  if (0 <=? n) && (n <? 10) then "0" ++ str n else str n.

(** ** Qt dates *)

Record QDate := mkDate { year : Z; month : Z; day : Z }.

(** [QDate.toJulianDay]: Qt's proleptic Gregorian day number. *)
Definition toJulianDay (d : QDate) : Z :=
  let y0 := if year d <? 0 then year d + 1 else year d in
  let a := (14 - month d) / 12 in
  let y := y0 + 4800 - a in
  let m := month d + 12 * a - 3 in
  day d + (153 * m + 2) / 5 + 365 * y + y / 4 - y / 100 + y / 400 - 32045.

(** [QDate.isLeapYear]: there is no year 0, so years before 1 are shifted. *)
Definition isLeapYear (y : Z) : bool :=
  let y := if y <? 1 then y + 1 else y in
  ((y mod 4 =? 0) && negb (y mod 100 =? 0)) || (y mod 400 =? 0).

(** Qt's table of month lengths, indexed by the month. *)
Definition monthDays : list Z := [0; 31; 28; 31; 30; 31; 30; 31; 31; 30; 31; 30; 31].

Definition daysInMonth (m y : Z) : Z :=
  if (m =? 2) && isLeapYear y then 29 else nth (Z.to_nat m) monthDays 0.

(** [QDate.isValid]. *)
Definition isValid (d : QDate) : bool :=
  negb (year d =? 0) && (1 <=? month d) && (month d <=? 12)
  && (1 <=? day d) && (day d <=? daysInMonth (month d) (year d)).

(** [d1 <= d2] and [d1 < d2] on [QDate], which Qt decides on the day number. *)
Definition date_leb (d1 d2 : QDate) : bool := toJulianDay d1 <=? toJulianDay d2.
Definition date_ltb (d1 d2 : QDate) : bool := toJulianDay d1 <? toJulianDay d2.

(** ** Ledger entries and devices *)

Module Entry.
(** One dict of [history_data]. *)
Record t := mk {
  date : QDate;
  previous_reading : Q;
  new_reading : Q;
  units : Q;
  unit_cost : Q;
  total_cost : Q
}.
End Entry.

Module Device.
(** One dict of [devices_data]. *)
Record t := mk {
  name : string;
  power_watts : Q;
  hours_per_day : Q;
  daily_kwh : Q;
  monthly_kwh : Q
}.
End Device.

(** ** The disk *)

Inductive file (A : Type) : Type :=
| absent                 (* [os.path.exists] is false *)
| corrupt                (* the file exists, reading it raises *)
| stored (content : A).  (* the file exists and [json.load] returns [content] *)
Arguments absent {A}.
Arguments corrupt {A}.
Arguments stored {A} content.

Record disk := mkDisk {
  history_file : file (list Entry.t);
  initial_reading_file : file Q;
  devices_file : file (list Device.t);
  (* [false]: [open(path, "w")] and [os.remove(path)] raise [OSError] *)
  history_writable : bool;
  initial_reading_writable : bool;
  devices_writable : bool
}.

(** ** The tracker object *)

Inductive message : Type :=
| information (title : string)
| warning (title : string)
| critical (title : string).

Record tracker := mkTracker {
  unit_cost : Q;
  history_data : list Entry.t;
  devices_data : list Device.t;
  current_reading : Q;
  files : disk
}.

Definition set_history_data (s : tracker) (h : list Entry.t) : tracker :=
  mkTracker (unit_cost s) h (devices_data s) (current_reading s) (files s).
Definition set_devices_data (s : tracker) (d : list Device.t) : tracker :=
  mkTracker (unit_cost s) (history_data s) d (current_reading s) (files s).
Definition set_current_reading (s : tracker) (r : Q) : tracker :=
  mkTracker (unit_cost s) (history_data s) (devices_data s) r (files s).
Definition set_files (s : tracker) (f : disk) : tracker :=
  mkTracker (unit_cost s) (history_data s) (devices_data s) (current_reading s) f.

(** ** Billing *)

(** What [calculate_bill] shows: the cost label or the warning box. *)
Inductive bill_display : Type :=
| cost_label (total_cost : Q)
| bill_warning (m : message).

Definition calculate_bill (s : tracker) (new_reading_input : option Q) : bill_display :=
  match new_reading_input with
  | None => bill_warning (warning "Invalid Input")
  | Some new_reading =>
      let consumption := (new_reading - current_reading s)%Q in
      if Qltb consumption 0 then bill_warning (warning "Invalid Input")
      else cost_label (consumption * unit_cost s)%Q
  end.

(** ** Ordinals *)

Definition ordinal_suffixes : list string := ["th"; "st"; "nd"; "rd"; "th"].

Definition _get_ordinal (n : Z) : string :=
  let suffix :=
    if (11 <=? n mod 100) && (n mod 100 <=? 13) then "th"
    else nth (Z.to_nat (Z.min (n mod 10) 4)) ordinal_suffixes "" in
  str n ++ suffix.

(** ** Python builtins on lists *)

Section Builtins.
Context {A : Type}.

(** [max(l, key=key)] continued from a current maximum: a later element
    replaces it only when its key is strictly greater, so the first
    maximal element wins. *)
Fixpoint max_from (key : A -> Z) (best : A) (l : list A) : A :=
  match l with
  | [] => best
  | x :: l' => max_from key (if key best <? key x then x else best) l'
  end.

(** [sorted]: a stable sort; [before y x] says that [y] has to come
    strictly before [x]. *)
Fixpoint insert (before : A -> A -> bool) (x : A) (l : list A) : list A :=
  match l with
  | [] => [x]
  | y :: r => if before y x then y :: insert before x r else x :: y :: r
  end.

Fixpoint sorted (before : A -> A -> bool) (l : list A) : list A :=
  match l with
  | [] => []
  | x :: r => insert before x (sorted before r)
  end.

(** [l[i]] with Python's negative indices; [None] is [IndexError]. *)
Definition getitem (l : list A) (i : Z) : option A :=
  let n := Z.of_nat (List.length l) in
  if i <? 0 then (if n + i <? 0 then None else nth_error l (Z.to_nat (n + i)))
  else nth_error l (Z.to_nat i).
End Builtins.

(** [sum(...)]: starts from 0 and adds from the left. *)
Definition sum (l : list Q) : Q := fold_left Qplus l 0%Q.

(** A [dict] with string keys, in insertion order. *)
Section Dict.
Context {V : Type}.
Definition dict := list (string * V).

Fixpoint dict_get (k : string) (d : dict) : option V :=
  match d with
  | [] => None
  | (k', v) :: r => if String.eqb k k' then Some v else dict_get k r
  end.

Definition dict_mem (k : string) (d : dict) : bool :=
  match dict_get k d with Some _ => true | None => false end.

(** [d[k] = v]: an existing key keeps its place, a new one goes last. *)
Fixpoint dict_set (k : string) (v : V) (d : dict) : dict :=
  match d with
  | [] => [(k, v)]
  | (k', v') :: r =>
      if String.eqb k k' then (k', v) :: r else (k', v') :: dict_set k v r
  end.

Definition dict_keys (d : dict) : list string := map fst d.
End Dict.
Arguments dict V : clear implicits.

(** [s.split(sep)] for a one-character separator. *)
Fixpoint split (sep : ascii) (s : string) : list string :=
  match s with
  | EmptyString => [EmptyString]
  | String c r =>
      if Ascii.eqb c sep then EmptyString :: split sep r
      else match split sep r with
           | [] => [String c EmptyString]
           | p :: ps => String c p :: ps
           end
  end.

(** [c.lower()] and [s.lower()] on ASCII. *)
Definition lower_char (c : ascii) : ascii :=
  let n := N_of_ascii c in
  if ((65 <=? n) && (n <=? 90))%N then ascii_of_N (n + 32) else c.

Fixpoint lower (s : string) : string :=
  match s with
  | EmptyString => EmptyString
  | String c r => String (lower_char c) (lower r)
  end.

(** [c.isspace()] on ASCII: tab, line feed, vertical tab, form feed,
    carriage return, the four separators 28 to 31, and space. *)
Definition isspace (c : ascii) : bool :=
  let n := N_of_ascii c in
  (((9 <=? n) && (n <=? 13)) || ((28 <=? n) && (n <=? 32)))%N.

Fixpoint lstrip (s : string) : string :=
  match s with
  | EmptyString => EmptyString
  | String c r => if isspace c then lstrip r else s
  end.

Fixpoint rstrip (s : string) : string :=
  match s with
  | EmptyString => EmptyString
  | String c r =>
      match rstrip r with
      | EmptyString => if isspace c then EmptyString else String c EmptyString
      | r' => String c r'
      end
  end.

(** [s.strip()]. *)
Definition strip (s : string) : string := rstrip (lstrip s).

(** [calendar.month_name]. *)
Definition month_name : list string :=
  [""; "January"; "February"; "March"; "April"; "May"; "June"; "July";
   "August"; "September"; "October"; "November"; "December"].

(** ** Ledger *)

Definition julian (e : Entry.t) : Z := toJulianDay (Entry.date e).

Definition get_initial_reading (s : tracker) : Q :=
  match history_data s with
  | e :: l => Entry.new_reading (max_from julian e l)
  | [] =>
      match initial_reading_file (files s) with
      | stored r => r
      | _ => 0%Q
      end
  end.

Definition refresh_current_reading (s : tracker) : tracker :=
  set_current_reading s (get_initial_reading s).

Definition save_history (s : tracker) : tracker * list message :=
  let f := files s in
  if history_writable f then
    (set_files s (mkDisk (stored (history_data s)) (initial_reading_file f)
                         (devices_file f) (history_writable f)
                         (initial_reading_writable f) (devices_writable f)), [])
  else (s, [warning "Save Error"]).

Definition load_history (f : disk) : list Entry.t * list message :=
  match history_file f with
  | stored h => (h, [])
  | absent => ([], [])
  | corrupt => ([], [critical "Load Error"])
  end.

Definition save_devices (s : tracker) : tracker * list message :=
  let f := files s in
  if devices_writable f then
    (set_files s (mkDisk (history_file f) (initial_reading_file f)
                         (stored (devices_data s)) (history_writable f)
                         (initial_reading_writable f) (devices_writable f)), [])
  else (s, [warning "Save Error"]).

Definition load_devices (f : disk) : list Device.t * list message :=
  match devices_file f with
  | stored d => (d, [])
  | absent => ([], [])
  | corrupt => ([], [critical "Load Error"])
  end.

(** [__init__], as far as the data goes. *)
Definition init (f : disk) : tracker * list message :=
  let (h, m1) := load_history f in
  let (d, m2) := load_devices f in
  (refresh_current_reading (mkTracker 12%Q h d 0%Q f), (m1 ++ m2)%list).

Definition set_initial_reading (s : tracker) (initial_reading_input : option Q)
  : tracker * list message :=
  match initial_reading_input with
  | None => (s, [warning "Invalid Input"])
  | Some initial_reading =>
      if Qltb initial_reading 0 then (s, [warning "Invalid Input"])
      else
        let f := files s in
        if initial_reading_writable f then
          let s1 := set_files s (mkDisk (history_file f) (stored initial_reading)
                                        (devices_file f) (history_writable f)
                                        (initial_reading_writable f)
                                        (devices_writable f)) in
          let s2 := set_current_reading s1 initial_reading in
          (refresh_current_reading s2, [information "Success"])
        else (s, [critical "File Error"])
  end.

(** [save_entry]; the table, summary and chart refreshes at its end only
    read the tracker and are left out. *)
Definition save_entry (s : tracker) (new_reading_input : option Q)
  (date_input : QDate) : tracker * list message :=
  match new_reading_input with
  | None => (s, [warning "Invalid Input"])
  | Some new_reading =>
      let consumption := (new_reading - current_reading s)%Q in
      if Qltb consumption 0 then (s, [warning "Invalid Input"])
      else
        let total_cost := (consumption * unit_cost s)%Q in
        let entry := Entry.mk date_input (current_reading s) new_reading
                              consumption (unit_cost s) total_cost in
        let s1 := set_history_data s (history_data s ++ [entry]) in
        let (s2, m) := save_history s1 in
        let s3 := set_current_reading s2 new_reading in
        (refresh_current_reading s3, (m ++ [information "Success"])%list)
  end.

Definition reset_data (s : tracker) : tracker * list message :=
  let f := files s in
  let history_present :=
    match history_file f with absent => false | _ => true end in
  if history_present && negb (history_writable f) then (s, [warning "Error"])
  else
    let f1 := mkDisk absent (initial_reading_file f) (devices_file f)
                     (history_writable f) (initial_reading_writable f)
                     (devices_writable f) in
    let initial_present :=
      match initial_reading_file f1 with absent => false | _ => true end in
    if initial_present && negb (initial_reading_writable f1)
    then (set_files s f1, [warning "Error"])
    else
      let f2 := mkDisk absent absent (devices_file f1)
                       (history_writable f1) (initial_reading_writable f1)
                       (devices_writable f1) in
      (mkTracker (unit_cost s) [] (devices_data s) 0%Q f2,
       [information "Reset Complete"]).

(** ** Filtering *)

Definition keeps (filter_type : string) (today start_date end_date : QDate)
  (entry : Entry.t) : bool :=
  let entry_date := Entry.date entry in
  if String.eqb filter_type "All" then true
  else if String.eqb filter_type "This Month" then
    (month entry_date =? month today) && (year entry_date =? year today)
  else if String.eqb filter_type "This Year" then
    year entry_date =? year today
  else if String.eqb filter_type "Custom Range" then
    date_leb start_date entry_date && date_leb entry_date end_date
  else false.

Definition filter_history (s : tracker) (filter_type : string)
  (today start_date end_date : QDate) : list Entry.t :=
  match history_data s with
  | [] => []
  | _ =>
      let sorted_data :=
        sorted (fun y x => date_ltb (Entry.date x) (Entry.date y)) (history_data s) in
      filter (keeps filter_type today start_date end_date) sorted_data
  end.

(** ** Weekly statistics *)

(** The dict [{"units": ..., "cost": ...}] of one period. *)
Record bucket := mkBucket { bucket_units : Q; bucket_cost : Q }.

Definition week_of_month (d : QDate) : Z := (day d - 1) / 7 + 1.

Definition sort_key (d : QDate) : string :=
  str (year d) ++ "-" ++ format_02d (month d) ++ "-" ++ str (week_of_month d).

(** One turn of the first loop of [show_weekly_stats]. *)
Definition weekly_step (year_ : Z) (weekly_data : dict bucket) (entry : Entry.t)
  : dict bucket :=
  let entry_date := Entry.date entry in
  if negb (year entry_date =? year_) then weekly_data
  else
    let k := sort_key entry_date in
    let weekly_data1 :=
      if dict_mem k weekly_data then weekly_data
      else dict_set k (mkBucket 0 0) weekly_data in
    match dict_get k weekly_data1 with
    | None => weekly_data1
    | Some b =>
        let b1 := mkBucket (bucket_units b + Entry.units entry) (bucket_cost b) in
        let weekly_data2 := dict_set k b1 weekly_data1 in
        dict_set k (mkBucket (bucket_units b1)
                             (bucket_cost b1 + Entry.total_cost entry))
                 weekly_data2
    end.

(** [y, m, w = map(int, key.split('-'))]; [None] is the [ValueError] of a
    failed [int] or of an unpacking of the wrong length. *)
Definition parse_key (key : string) : option (Z * Z * Z) :=
  match map int (split "-" key) with
  | [Some y; Some m; Some w] => Some (y, m, w)
  | _ => None
  end.

Definition display_key (y m w : Z) : option string :=
  match getitem month_name m with
  | Some name => Some (_get_ordinal w ++ " week " ++ name ++ " " ++ str y)
  | None => None
  end.

(** One turn of the second loop; [None] once an exception was raised. *)
Definition display_step (weekly_data : dict bucket)
  (display_data : option (dict bucket)) (key : string) : option (dict bucket) :=
  match display_data, parse_key key with
  | Some dd, Some (y, m, w) =>
      match display_key y m w, dict_get key weekly_data with
      | Some dk, Some b => Some (dict_set dk b dd)
      | _, _ => None
      end
  | _, _ => None
  end.

(** [show_weekly_stats]: the [display_data] handed to [update_graph], whose
    insertion order is the order of the plotted periods. *)
Definition show_weekly_stats (s : tracker) (year_ : Z) : option (dict bucket) :=
  let weekly_data := fold_left (weekly_step year_) (history_data s) [] in
  let sorted_keys := sorted String.ltb (dict_keys weekly_data) in
  fold_left (display_step weekly_data) sorted_keys (Some []).

(** ** Devices *)

Definition has_name_ci (name : string) (devices : list Device.t) : bool :=
  existsb (fun device => String.eqb (lower (Device.name device)) (lower name)) devices.

Definition add_device (s : tracker) (device_name_input : string)
  (device_power_input device_hours_input : option Q) : tracker * list message :=
  let name := strip device_name_input in
  match device_power_input, device_hours_input with
  | Some power, Some hours =>
      if String.eqb name "" then (s, [warning "Invalid Input"])
      else if Qle_bool power 0 || Qle_bool hours 0 then (s, [warning "Invalid Input"])
      else if Qltb 24 hours then (s, [warning "Invalid Input"])
      else if has_name_ci name (devices_data s) then (s, [warning "Duplicate Device"])
      else
        let device := Device.mk name power hours
                                ((power * hours) / 1000)%Q
                                ((power * hours * 30) / 1000)%Q in
        let s1 := set_devices_data s (devices_data s ++ [device]) in
        let (s2, m) := save_devices s1 in
        (s2, (m ++ [information "Success"])%list)
  | _, _ => (s, [warning "Invalid Input"])
  end.

Definition remove_device (s : tracker) (device_name : string)
  : tracker * list message :=
  let s1 := set_devices_data s
    (filter (fun d => negb (String.eqb (Device.name d) device_name)) (devices_data s)) in
  let (s2, m) := save_devices s1 in
  (s2, (m ++ [information "Success"])%list).

(** ** Estimation against actual usage *)

(** The text put on [comparison_label]. *)
Inductive comparison : Type :=
| very_close (actual : Q)
| more_than_estimate (actual difference : Q)
| less_than_estimate (actual abs_difference : Q)
| no_data_this_month
| add_some_history.

Definition in_month_of (today : QDate) (entry : Entry.t) : bool :=
  (month (Entry.date entry) =? month today) && (year (Entry.date entry) =? year today).

Definition total_monthly_kwh (s : tracker) : Q :=
  sum (map Device.monthly_kwh (devices_data s)).

Definition this_month_actual (s : tracker) (today : QDate) : Q :=
  sum (map Entry.units (filter (in_month_of today) (history_data s))).

(** [update_usage_estimation] once the labels exist: the estimated total,
    its cost, and the comparison text. *)
Definition update_usage_estimation (s : tracker) (today : QDate)
  : Q * Q * comparison :=
  let total := total_monthly_kwh s in
  let total_cost := (total * unit_cost s)%Q in
  let label :=
    match history_data s with
    | [] => add_some_history
    | _ =>
        let actual := this_month_actual s today in
        if Qltb 0 actual then
          let difference := (actual - total)%Q in
          if Qltb (Qabs difference) 1 then very_close actual
          else if Qltb 0 difference then more_than_estimate actual difference
          else less_than_estimate actual (Qabs difference)
        else no_data_this_month
    end in
  (total, total_cost, label).

(** ** Live consumption, reset dialog and summary *)

(** The text of a line edit: empty, or what [float] makes of it. *)
Inductive line_edit : Type :=
| blank
| typed (parsed : option Q).

(** What [float(text)] gives the methods that do not test for emptiness. *)
Definition float_of (t : line_edit) : option Q :=
  match t with
  | blank => None
  | typed parsed => parsed
  end.

(** The text put on [consumption_label]. *)
Inductive consumption_label : Type :=
| consumption_units (consumption : Q)
| must_be_higher
| enter_valid_reading.

Definition update_consumption (s : tracker) (new_reading_input : line_edit)
  : consumption_label :=
  match new_reading_input with
  | blank => consumption_units 0
  | typed None => enter_valid_reading
  | typed (Some new_reading) =>
      let consumption := (new_reading - current_reading s)%Q in
      if Qltb consumption 0 then must_be_higher
      else consumption_units consumption
  end.

(** [confirm_reset]: [ok] and [password] come from the input dialog,
    [reply_yes] from the question box, which is opened only after the
    right password. *)
Definition confirm_reset (s : tracker) (ok : bool) (password : string)
  (reply_yes : bool) : tracker * list message :=
  if ok && String.eqb password "reset123" then
    if reply_yes then reset_data s else (s, [])
  else if ok then (s, [warning "Incorrect Password"])
  else (s, []).



(** ** Dicts with keys of any type *)

Section KeyedDict.
Context {K V : Type} (eqb : K -> K -> bool).

(** A [dict] in insertion order, for keys compared by [eqb]; at
    [String.eqb] these are the functions of [dict]. *)
Fixpoint kdict_get (k : K) (d : list (K * V)) : option V :=
  match d with
  | [] => None
  | (k', v) :: r => if eqb k k' then Some v else kdict_get k r
  end.

Definition kdict_mem (k : K) (d : list (K * V)) : bool :=
  match kdict_get k d with Some _ => true | None => false end.

Fixpoint kdict_set (k : K) (v : V) (d : list (K * V)) : list (K * V) :=
  match d with
  | [] => [(k, v)]
  | (k', v') :: r =>
      if eqb k k' then (k', v) :: r else (k', v') :: kdict_set k v r
  end.

Definition kdict_keys (d : list (K * V)) : list K := map fst d.
End KeyedDict.

(** ** The graph *)

(** What [update_graph] draws: the placeholder text, or the line through
    [units] over [periods]. *)
Inductive chart (K : Type) : Type :=
| no_data_to_display
| plotted (periods : list K) (units : list Q).
Arguments no_data_to_display {K}.
Arguments plotted {K} periods units.

Section Graph.
Context {K : Type} (eqb : K -> K -> bool) (ltb : K -> K -> bool).

(** [[stats_data[key]['units'] for key in periods]]; [None] is [KeyError]. *)
Fixpoint plot_units (stats_data : list (K * bucket)) (periods : list K)
  : option (list Q) :=
  match periods with
  | [] => Some []
  | key :: r =>
      match kdict_get eqb key stats_data, plot_units stats_data r with
      | Some b, Some units => Some (bucket_units b :: units)
      | _, _ => None
      end
  end.

(** [update_graph]; [ltb] orders the keys when no order is handed in. *)
Definition update_graph (stats_data : list (K * bucket))
  (sorted_keys : option (list K)) : option (chart K) :=
  match stats_data with
  | [] => Some no_data_to_display
  | _ =>
      let periods :=
        match sorted_keys with
        | Some keys => keys
        | None => sorted ltb (kdict_keys stats_data)
        end in
      match plot_units stats_data periods with
      | Some units => Some (plotted periods units)
      | None => None
      end
  end.
End Graph.

(** ** Daily, monthly and yearly statistics *)

(** [f"{n:04d}"]-like padding of Qt's [yyyy]: four digits, behind a minus
    sign for a negative year. *)
Definition pad4 (n : Z) : string :=
  if n <? 10 then "000" ++ str n
  else if n <? 100 then "00" ++ str n
  else if n <? 1000 then "0" ++ str n
  else str n.

Definition format_yyyy (y : Z) : string :=
  if y <? 0 then "-" ++ pad4 (- y) else pad4 y.

(** [QDate.toString("yyyy-MM-dd")]. *)
Definition toString_iso (d : QDate) : string :=
  format_yyyy (year d) ++ "-" ++ format_02d (month d) ++ "-" ++ format_02d (day d).

(** One turn of the loop of [show_daily_stats]. *)
Definition daily_step (year_ : Z) (daily_data : dict bucket) (entry : Entry.t)
  : dict bucket :=
  let entry_date := Entry.date entry in
  if negb (year entry_date =? year_) then daily_data
  else
    let day_key := toString_iso entry_date in
    let daily_data1 :=
      if dict_mem day_key daily_data then daily_data
      else dict_set day_key (mkBucket 0 0) daily_data in
    match dict_get day_key daily_data1 with
    | None => daily_data1
    | Some b =>
        let b1 := mkBucket (bucket_units b + Entry.units entry) (bucket_cost b) in
        let daily_data2 := dict_set day_key b1 daily_data1 in
        dict_set day_key (mkBucket (bucket_units b1)
                                   (bucket_cost b1 + Entry.total_cost entry))
                 daily_data2
    end.

Definition show_daily_stats (s : tracker) (year_ : Z) : option (chart string) :=
  let daily_data := fold_left (daily_step year_) (history_data s) [] in
  update_graph String.eqb String.ltb daily_data None.

(** One turn of the first loop of [show_monthly_stats]. *)
Definition monthly_step (year_ : Z) (monthly_data_by_num : list (Z * bucket))
  (entry : Entry.t) : list (Z * bucket) :=
  let entry_date := Entry.date entry in
  if negb (year entry_date =? year_) then monthly_data_by_num
  else
    let month_num := month entry_date in
    let monthly1 :=
      if kdict_mem Z.eqb month_num monthly_data_by_num then monthly_data_by_num
      else kdict_set Z.eqb month_num (mkBucket 0 0) monthly_data_by_num in
    match kdict_get Z.eqb month_num monthly1 with
    | None => monthly1
    | Some b =>
        let b1 := mkBucket (bucket_units b + Entry.units entry) (bucket_cost b) in
        let monthly2 := kdict_set Z.eqb month_num b1 monthly1 in
        kdict_set Z.eqb month_num
                  (mkBucket (bucket_units b1)
                            (bucket_cost b1 + Entry.total_cost entry))
                  monthly2
    end.

(** One turn of the second loop; [None] once [calendar.month_name] raised. *)
Definition month_display_step (monthly_data_by_num : list (Z * bucket))
  (display_data : option (dict bucket)) (month_num : Z) : option (dict bucket) :=
  match display_data, getitem month_name month_num,
        kdict_get Z.eqb month_num monthly_data_by_num with
  | Some dd, Some display_key, Some b => Some (dict_set display_key b dd)
  | _, _, _ => None
  end.

(** [[calendar.month_name[k] for k in sorted_month_nums]]. *)
Fixpoint month_names (sorted_month_nums : list Z) : option (list string) :=
  match sorted_month_nums with
  | [] => Some []
  | k :: r =>
      match getitem month_name k, month_names r with
      | Some name, Some names => Some (name :: names)
      | _, _ => None
      end
  end.

Definition show_monthly_stats (s : tracker) (year_ : Z) : option (chart string) :=
  let monthly_data_by_num := fold_left (monthly_step year_) (history_data s) [] in
  let sorted_month_nums := sorted Z.ltb (kdict_keys monthly_data_by_num) in
  match fold_left (month_display_step monthly_data_by_num) sorted_month_nums (Some []),
        month_names sorted_month_nums with
  | Some display_data, Some sorted_display_keys =>
      update_graph String.eqb String.ltb display_data (Some sorted_display_keys)
  | _, _ => None
  end.

(** One turn of the loop of [show_yearly_stats]. *)
Definition yearly_step (yearly_data : list (Z * bucket)) (entry : Entry.t)
  : list (Z * bucket) :=
  let entry_date := Entry.date entry in
  let year_key := year entry_date in
  let yearly1 :=
    if kdict_mem Z.eqb year_key yearly_data then yearly_data
    else kdict_set Z.eqb year_key (mkBucket 0 0) yearly_data in
  match kdict_get Z.eqb year_key yearly1 with
  | None => yearly1
  | Some b =>
      let b1 := mkBucket (bucket_units b + Entry.units entry) (bucket_cost b) in
      let yearly2 := kdict_set Z.eqb year_key b1 yearly1 in
      kdict_set Z.eqb year_key
                (mkBucket (bucket_units b1)
                          (bucket_cost b1 + Entry.total_cost entry))
                yearly2
  end.

Definition show_yearly_stats (s : tracker) : option (chart Z) :=
  let yearly_data := fold_left yearly_step (history_data s) [] in
  update_graph Z.eqb Z.ltb yearly_data None.

(** The weekly graph: [show_weekly_stats] up to its call of [update_graph]. *)
Definition show_weekly_graph (s : tracker) (year_ : Z) : option (chart string) :=
  match show_weekly_stats s year_ with
  | Some display_data =>
      update_graph String.eqb String.ltb display_data
                   (Some (dict_keys display_data))
  | None => None
  end.

(** ** Analytics *)

(** What [update_analytics] leaves on the canvas. *)
Inductive analytics : Type :=
| graph_unchanged
| graph_of_labels (c : chart string)
| graph_of_years (c : chart Z).

(** [update_analytics]; [None] is an exception ([int] of the year text, or
    one raised by the statistics). *)
Definition update_analytics (s : tracker) (period year_str : string)
  : option analytics :=
  match history_data s with
  | [] => option_map graph_of_labels (update_graph String.eqb String.ltb [] None)
  | _ =>
      if String.eqb year_str "" then Some graph_unchanged
      else
        match int year_str with
        | None => None
        | Some year_ =>
            if String.eqb period "Daily" then
              option_map graph_of_labels (show_daily_stats s year_)
            else if String.eqb period "Weekly" then
              option_map graph_of_labels (show_weekly_graph s year_)
            else if String.eqb period "Monthly" then
              option_map graph_of_labels (show_monthly_stats s year_)
            else if String.eqb period "Yearly" then
              option_map graph_of_years (show_yearly_stats s)
            else Some graph_unchanged
        end
  end.

(** * Vocabulary of the properties, and sample sessions *)

(** ** Sample sessions *)

(** The entry [save_entry] builds from the tracker and its two inputs. *)
Definition new_entry (s : tracker) (new_reading : Q) (date_input : QDate) : Entry.t :=
  Entry.mk date_input (current_reading s) new_reading
           (new_reading - current_reading s)
           (unit_cost s)
           ((new_reading - current_reading s) * unit_cost s).

(** The disk of a first start: no file yet, all of them writable. *)
Definition empty_disk : disk := mkDisk absent absent absent true true true.

(** The tracker of a first start, after an initial reading of 100. *)
Definition fresh_100 : tracker :=
  fst (set_initial_reading (fst (init empty_disk)) (Some 100%Q)).

(** A ledger typed in by hand, its later date first. *)
Definition jan10 : Entry.t := Entry.mk (mkDate 2024 1 10) 100 150 50 12 600.
Definition jan05 : Entry.t := Entry.mk (mkDate 2024 1 5) 150 170 20 12 240.

Definition out_of_order : tracker :=
  mkTracker 12 [jan10; jan05] [] 150 empty_disk.

(** Two saves on a fresh tracker started at 100: first dated 10-01-2024,
    then back-dated to 05-01-2024. *)
Definition back_dated : tracker :=
  let s1 := fst (save_entry fresh_100 (Some 150%Q) (mkDate 2024 1 10)) in
  fst (save_entry s1 (Some 170%Q) (mkDate 2024 1 5)).

(** A registry holding the one device "Fridge". *)
Definition with_fridge : tracker :=
  fst (add_device (fst (init empty_disk)) "Fridge" (Some 200%Q) (Some 5%Q)).

(** The two texts that stand for "no comparison". *)
Definition no_comparison (c : comparison) : bool :=
  match c with
  | no_data_this_month | add_some_history => true
  | _ => false
  end.

(** A ledger whose only entry, dated in January 2024, used no unit. *)
Definition zero_usage : tracker :=
  fst (save_entry fresh_100 (Some 100%Q) (mkDate 2024 1 10)).

(** January 2024 with 50 units used and a 200 W device running 5 h a day. *)
Definition january_usage : tracker :=
  let s1 := fst (save_entry fresh_100 (Some 150%Q) (mkDate 2024 1 10)) in
  fst (add_device s1 "Fridge" (Some 200%Q) (Some 5%Q)).


(** ** Sessions *)

(** What the user can ask of the tracker. *)
Inductive action : Type :=
| do_set_initial_reading (input : option Q)
| do_save_entry (input : option Q) (date_input : QDate)
| do_reset_data
| do_add_device (text : string) (power hours : option Q)
| do_remove_device (device_name : string).

Definition perform (s : tracker) (a : action) : tracker * list message :=
  match a with
  | do_set_initial_reading input => set_initial_reading s input
  | do_save_entry input date_input => save_entry s input date_input
  | do_reset_data => reset_data s
  | do_add_device text power hours => add_device s text power hours
  | do_remove_device device_name => remove_device s device_name
  end.

(** The trackers a session started on disk [f] can be in. *)
Inductive reachable (f : disk) : tracker -> Prop :=
| reach_init : reachable f (fst (init f))
| reach_step s a : reachable f s -> reachable f (fst (perform s a)).

(** The cached reading is the derived one. *)
Definition reading_fresh (s : tracker) : Prop :=
  current_reading s = get_initial_reading s.



(** The tracker after the first of the two saves of [back_dated]. *)
Definition after_jan10 : tracker :=
  fst (perform fresh_100 (do_save_entry (Some 150%Q) (mkDate 2024 1 10))).

(** ** Calendar order

    [earlier d1 d2]: [d1] is before [d2] in the calendar. *)
Definition earlier (d1 d2 : QDate) : Prop :=
  year d1 < year d2
  \/ (year d1 = year d2
      /\ (month d1 < month d2 \/ (month d1 = month d2 /\ day d1 < day d2))).

(** The terms of [toJulianDay]: days before the year and before the month,
    in years that start in March. *)
Definition days_before_year (y : Z) : Z := 365 * y + y / 4 - y / 100 + y / 400.
Definition leap_shifted (k : Z) : bool :=
  (k mod 4 =? 0) && (negb (k mod 100 =? 0) || (k mod 400 =? 0)).
Definition shifted_year (d : QDate) : Z :=
  (if year d <? 0 then year d + 1 else year d) + 4800 - (14 - month d) / 12.
Definition shifted_month (d : QDate) : Z := month d + 12 * ((14 - month d) / 12) - 3.
Definition days_before_month (m : Z) : Z := (153 * m + 2) / 5.

(** ** Orders on entries and strings *)

(** [x] may stand before [y] in a list by date descending. *)
Definition not_earlier (x y : Entry.t) : Prop :=
  date_leb (Entry.date y) (Entry.date x) = true.

(** The sort key of [filter_history]: [y] goes before [x] when it is later. *)
Definition later_first (y x : Entry.t) : bool :=
  date_ltb (Entry.date x) (Entry.date y).

(** No character of [s] is [c]. *)
Fixpoint free_of (c : ascii) (s : string) : bool :=
  match s with
  | EmptyString => true
  | String a r => negb (Ascii.eqb a c) && free_of c r
  end.

(** Two strings that differ at a position both have: no common extension. *)
Fixpoint diverge (a b : string) : bool :=
  match a, b with
  | String c a', String c' b' => negb (Ascii.eqb c c') || diverge a' b'
  | _, _ => false
  end.

(** ** Weeks of the year *)

(** The (month, week-of-month) pairs a valid date can have. *)
Definition month_weeks : list (Z * Z) :=
  list_prod [1; 2; 3; 4; 5; 6; 7; 8; 9; 10; 11; 12] [1; 2; 3; 4; 5].

Definition month_week (d : QDate) : Z * Z := (month d, week_of_month d).

(** What follows the year in [sort_key]. *)
Definition key_suffix (p : Z * Z) : string :=
  "-" ++ format_02d (fst p) ++ "-" ++ str (snd p).

(** What precedes the year in the displayed label. *)
Definition label_prefix (p : Z * Z) : string :=
  _get_ordinal (snd p) ++ " week " ++ nth (Z.to_nat (fst p)) month_name "" ++ " ".

(** The order of (month, week) pairs, as a test and as a proposition. *)
Definition pair_ltb (p q : Z * Z) : bool :=
  (fst p <? fst q) || ((fst p =? fst q) && (snd p <? snd q)).

Definition pair_eqb (p q : Z * Z) : bool :=
  (fst p =? fst q) && (snd p =? snd q).

(** [e] is counted under [key] by the first loop. *)
Definition in_period (year_ : Z) (key : string) (e : Entry.t) : bool :=
  (year (Entry.date e) =? year_) && String.eqb (sort_key (Entry.date e)) key.

(** The sums of the entries that fall under [key]. *)
Definition period_bucket (year_ : Z) (key : string) (l : list Entry.t) : bucket :=
  mkBucket (sum (map Entry.units (filter (in_period year_ key) l)))
           (sum (map Entry.total_cost (filter (in_period year_ key) l))).

(** What the first loop has built once it has gone through [l]. *)
Definition weekly_built (year_ : Z) (l : list Entry.t) (D : dict bucket) : Prop :=
  NoDup (dict_keys D)
  /\ (forall key, In key (dict_keys D) <->
                  exists e, In e l /\ in_period year_ key e = true)
  /\ (forall key, In key (dict_keys D) ->
                  dict_get key D = Some (period_bucket year_ key l)).

(** The label of week [snd p] of month [fst p] of year [y]. *)
Definition week_label (y : Z) (p : Z * Z) : string :=
  _get_ordinal (snd p) ++ " week " ++ nth (Z.to_nat (fst p)) month_name "" ++ " " ++ str y.

(** [e] is of year [year_], month [fst p] and week-of-month [snd p]. *)
Definition in_week (year_ : Z) (p : Z * Z) (e : Entry.t) : bool :=
  (year (Entry.date e) =? year_) && (month (Entry.date e) =? fst p)
  && ((day (Entry.date e) - 1) / 7 + 1 =? snd p).

(** The sums over the entries of one week. *)
Definition week_bucket (s : tracker) (year_ : Z) (p : Z * Z) : bucket :=
  mkBucket (sum (map Entry.units (filter (in_week year_ p) (history_data s))))
           (sum (map Entry.total_cost (filter (in_week year_ p) (history_data s)))).

Definition pair_lt (p q : Z * Z) : Prop :=
  fst p < fst q \/ (fst p = fst q /\ snd p < snd q).

(** The dates of year [year_] in [l] have a month from 1 to 12 and a day
    from 1 to 31, as every valid [QDate] has. *)
Definition dated_in (year_ : Z) (l : list Entry.t) : Prop :=
  forall e, In e l -> year (Entry.date e) = year_ ->
            1 <= month (Entry.date e) <= 12 /\ 1 <= day (Entry.date e) <= 31.

(** Three saves on a fresh tracker started at 100, dated 01-02-2024,
    29-01-2024 and 31-01-2024 in this order. *)
Definition weekly_example : tracker :=
  let s1 := fst (save_entry fresh_100 (Some 110%Q) (mkDate 2024 2 1)) in
  let s2 := fst (save_entry s1 (Some 125%Q) (mkDate 2024 1 29)) in
  fst (save_entry s2 (Some 130%Q) (mkDate 2024 1 31)).

(** ** Restarting the tracker *)

(** The three files can be written and removed. *)
Definition all_writable (f : disk) : Prop :=
  history_writable f = true /\ initial_reading_writable f = true
  /\ devices_writable f = true.

(** Closing the window and starting again would give the same tracker. *)
Definition restartable (s : tracker) : Prop :=
  fst (init (files s)) = s.

(** What makes a tracker restartable, component by component. *)
Definition in_sync (s : tracker) : Prop :=
  unit_cost s = 12%Q
  /\ reading_fresh s
  /\ fst (load_history (files s)) = history_data s
  /\ fst (load_devices (files s)) = devices_data s
  /\ all_writable (files s).

(** [os.remove] has nothing to do or can do it. *)
Definition removable {A : Type} (content : file A) (writable : bool) : Prop :=
  content = absent \/ writable = true.

(** The entries of day number [j]. *)
Definition on_day (j : Z) (e : Entry.t) : bool := julian e =? j.

(** Two saves, then the initial-reading file is made read-only. *)
Definition initial_locked : tracker :=
  set_files back_dated
    (mkDisk (history_file (files back_dated))
            (initial_reading_file (files back_dated))
            (devices_file (files back_dated)) true false true).

(** A disk whose history file is unreadable, next to an initial reading. *)
Definition corrupt_disk : disk :=
  mkDisk corrupt (stored 100%Q) absent true true true.

(** ** Devices *)

(** What [add_device] guarantees of a device it stores. *)
Definition device_sound (d : Device.t) : Prop :=
  (0 < Device.power_watts d)%Q
  /\ (0 < Device.hours_per_day d)%Q /\ (Device.hours_per_day d <= 24)%Q
  /\ (Device.daily_kwh d == Device.power_watts d * Device.hours_per_day d / 1000)%Q
  /\ (Device.monthly_kwh d == Device.daily_kwh d * 30)%Q
  /\ Device.name d <> ""
  /\ strip (Device.name d) = Device.name d.

(** The names as the duplicate check of [add_device] compares them. *)
Definition folded_names (ds : list Device.t) : list string :=
  map (fun d => lower (Device.name d)) ds.

(** The devices found on disk at start, if any. *)
Definition stored_devices (f : disk) : list Device.t :=
  match devices_file f with
  | stored ds => ds
  | _ => []
  end.

(** The device [add_device] builds from its three inputs. *)
Definition new_device (text : string) (power hours : Q) : Device.t :=
  Device.mk (strip text) power hours
            (power * hours / 1000) (power * hours * 30 / 1000).

(** A first start followed by two devices. *)
Definition two_devices : tracker :=
  let s1 := fst (perform (fst (init empty_disk))
                   (do_add_device "Fridge" (Some 200%Q) (Some 5%Q))) in
  fst (perform s1 (do_add_device " Heater " (Some 100%Q) (Some 10%Q))).

(** ** Ledger entries *)





(** ** Tallies *)

Section Tally.
Context {K : Type} (eqb : K -> K -> bool).
Variables (selected : Entry.t -> bool) (key : Entry.t -> K).




End Tally.

(** ** Graphs *)

(** The chart over [periods]: the placeholder when there is none. *)
Definition chart_of {K : Type} (periods : list K) (units : list Q) : chart K :=
  match periods with
  | [] => no_data_to_display
  | _ => plotted periods units
  end.










(** * Properties *)

(** ** Comparisons on [Q] *)

Lemma Qltb_lt (a b : Q) : Qltb a b = true <-> (a < b)%Q.
Proof.
  unfold Qltb. rewrite negb_true_iff. split.
  - intros H. apply Qnot_le_lt. intros Hle.
    apply Qle_bool_iff in Hle. congruence.
  - intros H. destruct (Qle_bool b a) eqn:E; [|reflexivity].
    apply Qle_bool_iff in E. exfalso. exact (Qlt_not_le _ _ H E).
Qed.

Lemma Qltb_ge (a b : Q) : Qltb a b = false <-> (b <= a)%Q.
Proof.
  unfold Qltb. rewrite negb_false_iff. apply Qle_bool_iff.
Qed.

Lemma consumption_sign (a b : Q) : Qltb (b - a) 0 = false <-> (a <= b)%Q.
Proof.
  rewrite Qltb_ge. unfold Qminus. symmetry. apply Qle_minus_iff.
Qed.

(** ** Billing and saving *)

Lemma save_history_history (s : tracker) :
  history_data (fst (save_history s)) = history_data s.
Proof. unfold save_history. destruct (history_writable (files s)); reflexivity. Qed.

Lemma save_entry_accepted (s : tracker) (b : Q) (d : QDate) :
  Qltb (b - current_reading s) 0 = false ->
  history_data (fst (save_entry s (Some b) d)) = (history_data s ++ [new_entry s b d])%list
  /\ In (information "Success") (snd (save_entry s (Some b) d)).
Proof.
  intros H. unfold save_entry. rewrite H.
  destruct (save_history _) as [s2 m] eqn:E. cbn [fst snd].
  split.
  - change (history_data s2 = (history_data s ++ [new_entry s b d])%list).
    replace s2 with (fst (save_history
      (set_history_data s (history_data s ++ [new_entry s b d])%list)))
      by (unfold new_entry; rewrite E; reflexivity).
    apply save_history_history.
  - apply in_or_app. right. left. reflexivity.
Qed.

Lemma save_entry_rejected (s : tracker) (b : Q) (d : QDate) :
  Qltb (b - current_reading s) 0 = true ->
  save_entry s (Some b) d = (s, [warning "Invalid Input"]).
Proof. intros H. unfold save_entry. rewrite H. reflexivity. Qed.


(** C2. With previous reading [a] (the tracker's current reading), new
    reading [b] and unit cost [c]: when [a <= b], [calculate_bill] shows
    [(b - a) * c] and [save_entry] appends an entry with units [b - a] and
    total cost [(b - a) * c]; when [b < a], both stop with the
    "Invalid Input" warning and the tracker is left as it was. *)
Theorem billing_computation (s : tracker) (b : Q) (d : QDate) :
  let a := current_reading s in
  let c := unit_cost s in
  ((a <= b)%Q ->
     calculate_bill s (Some b) = cost_label ((b - a) * c)
     /\ exists e,
          history_data (fst (save_entry s (Some b) d)) = (history_data s ++ [e])%list
          /\ Entry.previous_reading e = a /\ Entry.new_reading e = b
          /\ Entry.units e = (b - a)%Q
          /\ Entry.total_cost e = ((b - a) * c)%Q)
  /\ ((b < a)%Q ->
        calculate_bill s (Some b) = bill_warning (warning "Invalid Input")
        /\ save_entry s (Some b) d = (s, [warning "Invalid Input"])).
Proof.
  intros a c. split.
  - intros Hab. apply consumption_sign in Hab. split.
    + unfold calculate_bill. fold a. rewrite Hab. reflexivity.
    + exists (new_entry s b d). split; [|repeat split].
      apply save_entry_accepted. exact Hab.
  - intros Hba.
    assert (H : Qltb (b - a) 0 = true).
    { destruct (Qltb (b - a) 0) eqn:E; [reflexivity|].
      apply consumption_sign in E. exfalso. exact (Qlt_not_le _ _ Hba E). }
    split.
    + unfold calculate_bill. fold a. rewrite H. reflexivity.
    + apply save_entry_rejected. exact H.
Qed.

Lemma billing_computation_witness :
  (calculate_bill fresh_100 (Some 150%Q) = cost_label ((150 - 100) * 12)%Q)
  /\ calculate_bill fresh_100 (Some 90%Q) = bill_warning (warning "Invalid Input").
Proof.
  split.
  - apply (proj1 (billing_computation fresh_100 150%Q (mkDate 2024 1 10))).
    vm_compute. discriminate.
  - apply (proj2 (billing_computation fresh_100 90%Q (mkDate 2024 1 10))).
    vm_compute. reflexivity.
Defined.

(** ** Ordinal labels *)

Lemma last_digit_cases (n : Z) :
  n mod 10 = 0 \/ n mod 10 = 1 \/ n mod 10 = 2 \/ n mod 10 = 3 \/ n mod 10 = 4
  \/ n mod 10 = 5 \/ n mod 10 = 6 \/ n mod 10 = 7 \/ n mod 10 = 8 \/ n mod 10 = 9.
Proof. pose proof (Z.mod_pos_bound n 10). lia. Qed.

Lemma ordinal_teens (n : Z) :
  11 <= n mod 100 <= 13 -> _get_ordinal n = str n ++ "th".
Proof.
  intros [H1 H2]. unfold _get_ordinal.
  apply Z.leb_le in H1. apply Z.leb_le in H2. rewrite H1, H2. reflexivity.
Qed.

Lemma ordinal_last_digit (n : Z) :
  ~ 11 <= n mod 100 <= 13 ->
  _get_ordinal n =
  str n ++ nth (Z.to_nat (Z.min (n mod 10) 4)) ordinal_suffixes "".
Proof.
  intros H. unfold _get_ordinal.
  destruct (11 <=? n mod 100) eqn:E1; [|reflexivity].
  destruct (n mod 100 <=? 13) eqn:E2; [|reflexivity].
  apply Z.leb_le in E1. apply Z.leb_le in E2. lia.
Qed.

(** C8. For a positive [n] the label is [n] followed by "th" when
    [n mod 100] is 11, 12 or 13, and otherwise by the suffix of the last
    digit: "st" for 1, "nd" for 2, "rd" for 3, "th" for 0 and 4 to 9; so 1,
    2, 3, 4, 11, 12, 13, 21 give "1st", "2nd", "3rd", "4th", "11th",
    "12th", "13th", "21st". *)
Theorem get_ordinal_english (n : Z) (Hpos : 0 < n) :
  (11 <= n mod 100 <= 13 -> _get_ordinal n = str n ++ "th")
  /\ (~ 11 <= n mod 100 <= 13 ->
        (n mod 10 = 1 -> _get_ordinal n = str n ++ "st")
        /\ (n mod 10 = 2 -> _get_ordinal n = str n ++ "nd")
        /\ (n mod 10 = 3 -> _get_ordinal n = str n ++ "rd")
        /\ (n mod 10 = 0 \/ 4 <= n mod 10 <= 9 -> _get_ordinal n = str n ++ "th"))
  /\ map _get_ordinal [1; 2; 3; 4; 11; 12; 13; 21]
     = ["1st"; "2nd"; "3rd"; "4th"; "11th"; "12th"; "13th"; "21st"].
Proof.
  split; [apply ordinal_teens|]. split; [|reflexivity].
  intros H. rewrite (ordinal_last_digit n H).
  repeat split; intros Hd.
  - rewrite Hd. reflexivity.
  - rewrite Hd. reflexivity.
  - rewrite Hd. reflexivity.
  - destruct (last_digit_cases n) as [E|[E|[E|[E|[E|[E|[E|[E|[E|E]]]]]]]]];
      rewrite E in *; try reflexivity; lia.
Qed.

Lemma get_ordinal_english_witness :
  _get_ordinal 112 = "112th" /\ _get_ordinal 22 = "22nd".
Proof.
  split.
  - apply (proj1 (get_ordinal_english 112 ltac:(lia))). vm_compute.
    split; discriminate.
  - apply (proj1 (proj2 (get_ordinal_english 22 ltac:(lia)))).
    + vm_compute. intros [_ H]. apply H. reflexivity.
    + reflexivity.
Defined.

(** ** Persistence of the ledger *)



(** ** Julian days and the calendar *)

Lemma julian_shifted (d : QDate) :
  toJulianDay d
  = day d + days_before_month (shifted_month d)
    + days_before_year (shifted_year d) - 32045.
Proof.
  unfold toJulianDay, days_before_month, days_before_year, shifted_month,
    shifted_year.
  lia.
Qed.

Lemma days_before_year_step (n : Z) :
  days_before_year (n + 1)
  = days_before_year n + 365 + (if leap_shifted (n + 1) then 1 else 0).
Proof.
  unfold days_before_year, leap_shifted.
  destruct (Z.eqb_spec ((n + 1) mod 4) 0), (Z.eqb_spec ((n + 1) mod 100) 0),
    (Z.eqb_spec ((n + 1) mod 400) 0);
    cbn [andb orb negb]; Z.div_mod_to_equations; lia.
Qed.

Lemma days_before_year_mono_nat (a : Z) (n : nat) :
  days_before_year a <= days_before_year (a + Z.of_nat n).
Proof.
  induction n as [|n IH].
  - replace (a + Z.of_nat 0) with a by lia. lia.
  - replace (a + Z.of_nat (S n)) with (a + Z.of_nat n + 1) by lia.
    rewrite days_before_year_step.
    destruct (leap_shifted (a + Z.of_nat n + 1)); lia.
Qed.

Lemma days_before_year_mono (a b : Z) :
  a <= b -> days_before_year a <= days_before_year b.
Proof.
  intros H. replace b with (a + Z.of_nat (Z.to_nat (b - a))) by lia.
  apply days_before_year_mono_nat.
Qed.

Lemma days_before_month_mono (m n : Z) :
  m <= n -> days_before_month m <= days_before_month n.
Proof. unfold days_before_month. intros. Z.div_mod_to_equations. lia. Qed.

Lemma valid_fields (d : QDate) :
  isValid d = true ->
  year d <> 0 /\ 1 <= month d <= 12
  /\ 1 <= day d <= daysInMonth (month d) (year d).
Proof.
  unfold isValid.
  rewrite !andb_true_iff, negb_true_iff, Z.eqb_neq, !Z.leb_le. tauto.
Qed.

Lemma month_cases (m : Z) :
  1 <= m <= 12 ->
  m = 1 \/ m = 2 \/ m = 3 \/ m = 4 \/ m = 5 \/ m = 6 \/ m = 7 \/ m = 8
  \/ m = 9 \/ m = 10 \/ m = 11 \/ m = 12.
Proof. lia. Qed.

Ltac each_month Hm E :=
  destruct (month_cases _ Hm)
    as [E|[E|[E|[E|[E|[E|[E|[E|[E|[E|[E|E]]]]]]]]]]].

Lemma daysInMonth_table (m y : Z) :
  1 <= m <= 12 ->
  daysInMonth m y =
  if m =? 2 then (if isLeapYear y then 29 else 28)
  else if (m =? 4) || (m =? 6) || (m =? 9) || (m =? 11) then 30 else 31.
Proof.
  intros Hm. unfold daysInMonth.
  each_month Hm E; rewrite E; destruct (isLeapYear y); reflexivity.
Qed.

(** A valid date stays within its month: before the first day of the next
    month of the shifted year, or, in February, of the next shifted year. *)
Lemma within_month (d : QDate) :
  isValid d = true ->
  1 <= day d
  /\ ((shifted_month d <= 10
       /\ day d + days_before_month (shifted_month d)
          <= days_before_month (shifted_month d + 1))
      \/ (shifted_month d = 11
          /\ day d + days_before_month 11 + days_before_year (shifted_year d)
             <= days_before_year (shifted_year d + 1))).
Proof.
  intros H. apply valid_fields in H. destruct H as (Hy & Hm & Hd1 & Hd2).
  split; [exact Hd1|].
  rewrite (daysInMonth_table _ _ Hm) in Hd2.
  unfold shifted_month.
  each_month Hm E; try (left; rewrite E in *; cbn in Hd2 |- *; lia).
  right. split; [rewrite E; reflexivity|].
  rewrite days_before_year_step. unfold shifted_year. rewrite E in *.
  change ((14 - 2) / 12) with 1. change (days_before_month 11) with 337.
  unfold isLeapYear in Hd2. cbn [Z.eqb Pos.eqb] in Hd2.
  replace (year d <? 1) with (year d <? 0) in Hd2
    by (destruct (Z.ltb_spec (year d) 0), (Z.ltb_spec (year d) 1);
        lia || reflexivity).
  set (y0 := if year d <? 0 then year d + 1 else year d) in *.
  replace (y0 + 4800 - 1 + 1) with (y0 + 4800) by lia.
  unfold leap_shifted.
  replace ((y0 + 4800) mod 4) with (y0 mod 4) by (Z.div_mod_to_equations; lia).
  replace ((y0 + 4800) mod 100) with (y0 mod 100)
    by (Z.div_mod_to_equations; lia).
  replace ((y0 + 4800) mod 400) with (y0 mod 400)
    by (Z.div_mod_to_equations; lia).
  destruct (Z.eqb_spec (y0 mod 4) 0) as [E4|E4],
           (Z.eqb_spec (y0 mod 100) 0) as [E100|E100],
           (Z.eqb_spec (y0 mod 400) 0) as [E400|E400];
    cbn [andb orb negb] in Hd2 |- *; try lia;
    exfalso; Z.div_mod_to_equations; lia.
Qed.

Lemma shifted_order (d1 d2 : QDate) :
  isValid d1 = true -> isValid d2 = true -> earlier d1 d2 ->
  shifted_year d1 < shifted_year d2
  \/ (shifted_year d1 = shifted_year d2
      /\ (shifted_month d1 < shifted_month d2
          \/ (shifted_month d1 = shifted_month d2 /\ day d1 < day d2))).
Proof.
  intros H1 H2. apply valid_fields in H1. apply valid_fields in H2.
  destruct H1 as (Hy1 & Hm1 & _). destruct H2 as (Hy2 & Hm2 & _).
  unfold earlier, shifted_year, shifted_month.
  destruct (Z.ltb_spec (year d1) 0), (Z.ltb_spec (year d2) 0);
    Z.div_mod_to_equations; lia.
Qed.

Lemma shifted_month_range (d : QDate) :
  isValid d = true -> 0 <= shifted_month d <= 11.
Proof.
  intros H. apply valid_fields in H. destruct H as (_ & Hm & _).
  unfold shifted_month. Z.div_mod_to_equations. lia.
Qed.

Lemma julian_increasing (d1 d2 : QDate) :
  isValid d1 = true -> isValid d2 = true ->
  earlier d1 d2 -> toJulianDay d1 < toJulianDay d2.
Proof.
  intros H1 H2 He. rewrite !julian_shifted.
  pose proof (shifted_order d1 d2 H1 H2 He) as Ho.
  pose proof (within_month d1 H1) as [_ W1].
  pose proof (within_month d2 H2) as [D2 _].
  pose proof (shifted_month_range d1 H1) as R1.
  pose proof (shifted_month_range d2 H2) as R2.
  assert (F0 : 0 <= days_before_month (shifted_month d2))
    by (apply (days_before_month_mono 0); lia).
  destruct Ho as [Hy|[Hy [Hm|[Hm Hd]]]].
  - pose proof (days_before_year_mono (shifted_year d1 + 1) (shifted_year d2)
                  ltac:(lia)) as HG.
    destruct W1 as [[Hle W]|[E W]].
    + pose proof (days_before_month_mono (shifted_month d1 + 1) 11 ltac:(lia))
        as HF.
      pose proof (days_before_year_step (shifted_year d1)) as HS.
      change (days_before_month 11) with 337 in HF.
      destruct (leap_shifted (shifted_year d1 + 1)); lia.
    + rewrite E. lia.
  - rewrite Hy. destruct W1 as [[Hle W]|[E W]]; [|lia].
    pose proof (days_before_month_mono (shifted_month d1 + 1) (shifted_month d2)
                  ltac:(lia)).
    lia.
  - rewrite Hy, Hm. lia.
Qed.

(** On valid dates the Julian day orders as the calendar does. *)
Lemma julian_calendar (d1 d2 : QDate) :
  isValid d1 = true -> isValid d2 = true ->
  (toJulianDay d1 < toJulianDay d2 <-> earlier d1 d2).
Proof.
  intros H1 H2. split; [|apply julian_increasing; assumption].
  intros Hlt.
  pose proof (julian_increasing d2 d1 H2 H1) as Hback.
  destruct (Z.lt_trichotomy (year d1) (year d2)) as [Hy|[Hy|Hy]];
    [left; exact Hy| |unfold earlier in *; lia].
  destruct (Z.lt_trichotomy (month d1) (month d2)) as [Hm|[Hm|Hm]];
    [right; split; [exact Hy|left; exact Hm]| |unfold earlier in *; lia].
  destruct (Z.lt_trichotomy (day d1) (day d2)) as [Hd|[Hd|Hd]].
  - right. split; [exact Hy|right; split; assumption].
  - exfalso. destruct d1, d2. cbn in *. subst. lia.
  - unfold earlier in *. lia.
Qed.

Lemma date_leb_calendar (d1 d2 : QDate) :
  isValid d1 = true -> isValid d2 = true ->
  (date_leb d1 d2 = true <-> ~ earlier d2 d1).
Proof.
  intros H1 H2. unfold date_leb. rewrite Z.leb_le, <- (julian_calendar d2 d1 H2 H1).
  lia.
Qed.

(** ** The current reading *)

Section MaxFrom.
Context {A : Type} (key : A -> Z).

Lemma max_from_In (l : list A) : forall best, In (max_from key best l) (best :: l).
Proof.
  induction l as [|x l IH]; intros best; simpl.
  - left. reflexivity.
  - destruct (IH (if key best <? key x then x else best)) as [H|H].
    + destruct (key best <? key x); [right; left|left]; exact H.
    + right. right. exact H.
Qed.

Lemma max_from_ge_best (l : list A) :
  forall best, key best <= key (max_from key best l).
Proof.
  induction l as [|x l IH]; intros best; simpl; [lia|].
  specialize (IH (if key best <? key x then x else best)).
  destruct (key best <? key x) eqn:E; [apply Z.ltb_lt in E|]; lia.
Qed.

Lemma max_from_upper (l : list A) :
  forall best x, In x (best :: l) -> key x <= key (max_from key best l).
Proof.
  induction l as [|y l IH]; intros best x Hin.
  - destruct Hin as [->|[]]. simpl. lia.
  - simpl.
    pose proof (max_from_ge_best l (if key best <? key y then y else best)) as H.
    destruct Hin as [->|[->|Hin]].
    + destruct (key x <? key y) eqn:E; [apply Z.ltb_lt in E|]; lia.
    + destruct (key best <? key x) eqn:E; [|apply Z.ltb_ge in E]; lia.
    + apply IH. right. exact Hin.
Qed.
End MaxFrom.

(** C1. On a non-empty ledger [get_initial_reading] is the [new_reading]
    of an entry whose date no other entry exceeds (in [QDate]'s order, which
    on valid dates is the calendar's); on an empty ledger it is
    the number stored in the initial-reading file, and 0 when that file is
    missing or unreadable.  After saves dated 10-01-2024 and then
    05-01-2024 it is the reading of the 10-01-2024 entry. *)
Theorem get_initial_reading_spec (s : tracker) :
  (history_data s <> [] ->
     exists e, In e (history_data s)
       /\ (forall e', In e' (history_data s) ->
             date_leb (Entry.date e') (Entry.date e) = true)
       /\ (forall e', In e' (history_data s) ->
             isValid (Entry.date e) = true -> isValid (Entry.date e') = true ->
             ~ earlier (Entry.date e) (Entry.date e'))
       /\ get_initial_reading s = Entry.new_reading e)
  /\ (history_data s = [] ->
        (forall r, initial_reading_file (files s) = stored r ->
                   get_initial_reading s = r)
        /\ (initial_reading_file (files s) = absent -> get_initial_reading s = 0%Q)
        /\ (initial_reading_file (files s) = corrupt -> get_initial_reading s = 0%Q))
  /\ (map Entry.date (history_data back_dated) = [mkDate 2024 1 10; mkDate 2024 1 5]
      /\ map Entry.new_reading (history_data back_dated) = [150%Q; 170%Q]
      /\ get_initial_reading back_dated = 150%Q).
Proof.
  split; [|split].
  - intros Hne. unfold get_initial_reading.
    destruct (history_data s) as [|e0 l]; [congruence|].
    exists (max_from julian e0 l).
    assert (Hmax : forall e', In e' (e0 :: l) ->
              date_leb (Entry.date e') (Entry.date (max_from julian e0 l)) = true).
    { intros e' Hin. unfold date_leb. apply Z.leb_le.
      apply (max_from_upper julian l e0 e' Hin). }
    split; [apply max_from_In|]. split; [exact Hmax|]. split; [|reflexivity].
    intros e' Hin Hv Hv'. apply (date_leb_calendar _ _ Hv' Hv). apply Hmax. exact Hin.
  - intros Hnil. unfold get_initial_reading. rewrite Hnil.
    repeat split; intros; rewrite H; reflexivity.
  - vm_compute. repeat split.
Qed.

Lemma get_initial_reading_spec_witness :
  exists e, In e (history_data out_of_order)
    /\ (forall e', In e' (history_data out_of_order) ->
          date_leb (Entry.date e') (Entry.date e) = true)
    /\ (forall e', In e' (history_data out_of_order) ->
          isValid (Entry.date e) = true -> isValid (Entry.date e') = true ->
          ~ earlier (Entry.date e) (Entry.date e'))
    /\ get_initial_reading out_of_order = Entry.new_reading e.
Proof.
  apply (proj1 (get_initial_reading_spec out_of_order)).
  simpl. discriminate.
Defined.

(** ** Device registry *)

Lemma has_name_ci_iff (name : string) (devices : list Device.t) :
  has_name_ci name devices = true <->
  exists d, In d devices /\ lower (Device.name d) = lower name.
Proof.
  unfold has_name_ci. rewrite existsb_exists.
  split; intros [d [Hin H]]; exists d; split; auto; apply String.eqb_eq; exact H.
Qed.

Lemma add_device_duplicate (s : tracker) (text : string) (power hours : option Q) :
  has_name_ci (strip text) (devices_data s) = true ->
  exists title, add_device s text power hours = (s, [warning title]).
Proof.
  intros H. unfold add_device.
  destruct power as [p|], hours as [h|]; try (eexists; reflexivity).
  destruct (String.eqb (strip text) ""); [eexists; reflexivity|].
  destruct (Qle_bool p 0 || Qle_bool h 0); [eexists; reflexivity|].
  destruct (Qltb 24 h); [eexists; reflexivity|].
  rewrite H. eexists; reflexivity.
Qed.

Lemma save_devices_devices (s : tracker) :
  devices_data (fst (save_devices s)) = devices_data s.
Proof. unfold save_devices. destruct (devices_writable (files s)); reflexivity. Qed.

Lemma remove_device_devices (s : tracker) (n : string) :
  devices_data (fst (remove_device s n))
  = filter (fun d => negb (String.eqb (Device.name d) n)) (devices_data s).
Proof.
  unfold remove_device.
  destruct (save_devices _) as [s2 m] eqn:E. cbn [fst].
  replace s2 with (fst (save_devices (set_devices_data s
    (filter (fun d => negb (String.eqb (Device.name d) n)) (devices_data s)))))
    by (rewrite E; reflexivity).
  apply save_devices_devices.
Qed.

(** C7. [add_device] refuses a name that equals, after lower-casing, the
    name of a registered device; [remove_device] drops exactly the devices
    whose stored name is the given string, case included; so "Fridge",
    once added, is still registered after [remove_device "fridge"]. *)
Theorem device_name_case_asymmetry :
  (forall s text power hours d,
      In d (devices_data s) ->
      lower (Device.name d) = lower (strip text) ->
      exists title, add_device s text power hours = (s, [warning title]))
  /\ (forall s n d,
        In d (devices_data (fst (remove_device s n)))
        <-> In d (devices_data s) /\ Device.name d <> n)
  /\ (map Device.name (devices_data with_fridge) = ["Fridge"]
      /\ add_device with_fridge "fridge" (Some 100%Q) (Some 10%Q)
         = (with_fridge, [warning "Duplicate Device"])
      /\ devices_data (fst (remove_device with_fridge "fridge"))
         = devices_data with_fridge
      /\ devices_data (fst (remove_device with_fridge "Fridge")) = []).
Proof.
  split; [|split].
  - intros s text power hours d Hin Hl.
    apply add_device_duplicate. apply has_name_ci_iff. exists d. auto.
  - intros s n d. rewrite remove_device_devices, filter_In, negb_true_iff.
    split; intros [H1 H2]; split; auto.
    + intros Heq. apply String.eqb_eq in Heq. congruence.
    + apply String.eqb_neq. exact H2.
  - vm_compute. repeat split.
Qed.

(** ** Estimate against actual usage *)

(** C4, as stated, fails: the ledger has an entry for the current month
    and still no comparison is shown, because that entry used no unit. *)
Lemma comparison_absent_with_entries :
  ~ (no_comparison (snd (update_usage_estimation zero_usage (mkDate 2024 1 20))) = true
     <-> filter (in_month_of (mkDate 2024 1 20)) (history_data zero_usage) = []).
Proof.
  vm_compute. intros [H _]. specialize (H eq_refl). discriminate H.
Qed.

(** C4, amended. No comparison is shown exactly when the units of the
    current month's entries do not sum to more than 0, which includes every
    ledger without an entry for the month; otherwise the difference is
    actual minus estimated, and the text is "very close" when its absolute
    value is below 1, "more than estimate" when it is positive, and "less
    than estimate" otherwise. *)
Theorem usage_comparison_spec (s : tracker) (today : QDate) :
  let actual := this_month_actual s today in
  let estimated := total_monthly_kwh s in
  let difference := (actual - estimated)%Q in
  let label := snd (update_usage_estimation s today) in
  fst (fst (update_usage_estimation s today)) = estimated
  /\ (no_comparison label = true <-> ~ (0 < actual)%Q)
  /\ (filter (in_month_of today) (history_data s) = [] -> no_comparison label = true)
  /\ ((0 < actual)%Q ->
        ((Qabs difference < 1)%Q -> label = very_close actual)
        /\ (~ (Qabs difference < 1)%Q -> (0 < difference)%Q ->
              label = more_than_estimate actual difference)
        /\ (~ (Qabs difference < 1)%Q -> ~ (0 < difference)%Q ->
              label = less_than_estimate actual (Qabs difference))).
Proof.
  intros actual estimated difference label.
  assert (Hempty : history_data s = [] -> ~ (0 < actual)%Q).
  { intros E. unfold actual, this_month_actual. rewrite E. simpl.
    apply Qlt_irrefl. }
  assert (Hpos : (0 < actual)%Q ->
                 label = if Qltb (Qabs difference) 1 then very_close actual
                         else if Qltb 0 difference
                              then more_than_estimate actual difference
                              else less_than_estimate actual (Qabs difference)).
  { intros H. unfold label, update_usage_estimation. cbn [snd].
    destruct (history_data s) eqn:E; [exfalso; exact (Hempty eq_refl H)|].
    fold actual. apply Qltb_lt in H. rewrite H. reflexivity. }
  assert (Hnone : ~ (0 < actual)%Q -> no_comparison label = true).
  { intros H. unfold label, update_usage_estimation. cbn [snd].
    destruct (history_data s) eqn:E; [reflexivity|].
    fold actual. destruct (Qltb 0 actual) eqn:L; [|reflexivity].
    apply Qltb_lt in L. contradiction. }
  split; [reflexivity|]. split; [|split].
  - split; [|exact Hnone].
    intros Hn Hp. rewrite (Hpos Hp) in Hn.
    destruct (Qltb (Qabs difference) 1); [discriminate|].
    destruct (Qltb 0 difference); discriminate.
  - intros E. apply Hnone. unfold actual, this_month_actual. rewrite E. simpl.
    apply Qlt_irrefl.
  - intros Hp. rewrite (Hpos Hp). repeat split.
    + intros H. apply Qltb_lt in H. rewrite H. reflexivity.
    + intros H1 H2. destruct (Qltb (Qabs difference) 1) eqn:E1.
      * apply Qltb_lt in E1. contradiction.
      * apply Qltb_lt in H2. rewrite H2. reflexivity.
    + intros H1 H2. destruct (Qltb (Qabs difference) 1) eqn:E1.
      * apply Qltb_lt in E1. contradiction.
      * destruct (Qltb 0 difference) eqn:E2; [|reflexivity].
        apply Qltb_lt in E2. contradiction.
Qed.

Lemma usage_comparison_spec_witness :
  snd (update_usage_estimation january_usage (mkDate 2024 1 20))
  = more_than_estimate
      (this_month_actual january_usage (mkDate 2024 1 20))
      (this_month_actual january_usage (mkDate 2024 1 20)
       - total_monthly_kwh january_usage).
Proof.
  pose proof (usage_comparison_spec january_usage (mkDate 2024 1 20)) as H.
  cbv zeta in H. destruct H as [_ [_ [_ H]]].
  assert (Hp : (0 < this_month_actual january_usage (mkDate 2024 1 20))%Q)
    by (vm_compute; reflexivity).
  destruct (H Hp) as [_ [Hmore _]].
  apply Hmore.
  - vm_compute. discriminate.
  - vm_compute. reflexivity.
Defined.

(** ** Rejected operations *)








(** ** Reachable trackers *)












(** ** Sorting *)

Section Sorting.
Context {A : Type} (before : A -> A -> bool) (R : A -> A -> Prop).
Hypothesis before_R : forall x y, before y x = true -> R y x.
Hypothesis not_before_R : forall x y, before y x = false -> R x y.
Hypothesis R_trans : forall x y z, R x y -> R y z -> R x z.

Lemma insert_perm (x : A) (l : list A) : Permutation (insert before x l) (x :: l).
Proof.
  induction l as [|y r IH]; simpl; [apply Permutation_refl|].
  destruct (before y x); [|apply Permutation_refl].
  apply perm_trans with (y :: x :: r); [apply perm_skip; exact IH|apply perm_swap].
Qed.

Lemma sorted_perm (l : list A) : Permutation (sorted before l) l.
Proof.
  induction l as [|x r IH]; simpl; [apply perm_nil|].
  apply perm_trans with (x :: sorted before r);
    [apply insert_perm|apply perm_skip; exact IH].
Qed.

Lemma insert_sorted (x : A) (l : list A) :
  StronglySorted R l -> StronglySorted R (insert before x l).
Proof.
  induction 1 as [|y r Hs IH Hy]; simpl.
  - constructor; constructor.
  - destruct (before y x) eqn:E.
    + constructor; [exact IH|].
      apply (Permutation_Forall (Permutation_sym (insert_perm x r))).
      constructor; [apply before_R; exact E|exact Hy].
    + constructor; [constructor; assumption|].
      constructor; [apply not_before_R; exact E|].
      apply (Forall_impl (P := R y)); [|exact Hy].
      intros z Hz. apply (R_trans x y z); [apply not_before_R; exact E|exact Hz].
Qed.

Lemma sorted_sorted (l : list A) : StronglySorted R (sorted before l).
Proof.
  induction l as [|x r IH]; simpl; [constructor|apply insert_sorted; exact IH].
Qed.
End Sorting.

Lemma filter_sorted {A : Type} (R : A -> A -> Prop) (p : A -> bool) (l : list A) :
  StronglySorted R l -> StronglySorted R (filter p l).
Proof.
  induction 1 as [|x r Hs IH Hx]; simpl; [constructor|].
  destruct (p x); [|exact IH].
  constructor; [exact IH|].
  apply Forall_forall. intros y Hy. apply filter_In in Hy.
  apply (proj1 (Forall_forall _ _) Hx). tauto.
Qed.

Lemma filter_perm {A : Type} (p : A -> bool) (l l' : list A) :
  Permutation l l' -> Permutation (filter p l) (filter p l').
Proof.
  induction 1 as [|x l l' _ IH|x y l|l l' l'' _ IH1 _ IH2]; simpl.
  - apply perm_nil.
  - destruct (p x); [apply perm_skip|]; exact IH.
  - destruct (p x), (p y); try apply Permutation_refl. apply perm_swap.
  - apply perm_trans with (filter p l'); assumption.
Qed.

Lemma filter_all {A : Type} (p : A -> bool) (l : list A) :
  (forall x, p x = true) -> filter p l = l.
Proof.
  intros H. induction l as [|x r IH]; simpl; [reflexivity|].
  rewrite H, IH. reflexivity.
Qed.

(** ** Filtering the ledger *)

Lemma sorted_desc_sorted (l : list Entry.t) :
  StronglySorted not_earlier (sorted later_first l).
Proof.
  apply sorted_sorted; unfold later_first, not_earlier, date_ltb, date_leb.
  - intros x y H. apply Z.ltb_lt in H. apply Z.leb_le. lia.
  - intros x y H. apply Z.ltb_ge in H. apply Z.leb_le. lia.
  - intros x y z H1 H2. apply Z.leb_le in H1. apply Z.leb_le in H2.
    apply Z.leb_le. lia.
Qed.

Lemma filter_history_eq (s : tracker) (ft : string) (today start_date end_date : QDate) :
  filter_history s ft today start_date end_date
  = filter (keeps ft today start_date end_date) (sorted later_first (history_data s)).
Proof.
  unfold filter_history. destruct (history_data s); reflexivity.
Qed.

Lemma filter_history_In (s : tracker) (ft : string) (today start_date end_date : QDate)
  (e : Entry.t) :
  In e (filter_history s ft today start_date end_date)
  <-> In e (history_data s) /\ keeps ft today start_date end_date e = true.
Proof.
  rewrite filter_history_eq, filter_In.
  split; intros [H1 H2]; split; auto.
  - apply (Permutation_in e (sorted_perm later_first (history_data s))). exact H1.
  - apply (Permutation_in e (Permutation_sym (sorted_perm later_first (history_data s)))).
    exact H1.
Qed.

(** C6. Whatever the mode, [filter_history] returns its entries by date
    descending, each as often as the ledger has it; "All" keeps the whole
    ledger, "This Month" exactly the entries whose month and year are
    today's, "This Year" exactly those whose year is today's, and
    "Custom Range" exactly those dated from [start_date] to [end_date],
    both ends included.  Dates are compared as [QDate] does, which on valid
    dates is the calendar order. *)
Theorem filter_history_spec (s : tracker) (today start_date end_date : QDate) :
  let result ft := filter_history s ft today start_date end_date in
  (forall ft, StronglySorted not_earlier (result ft))
  /\ (forall ft, Permutation (result ft)
                   (filter (keeps ft today start_date end_date) (history_data s)))
  /\ Permutation (result "All") (history_data s)
  /\ (forall e, In e (result "This Month") <->
                In e (history_data s)
                /\ month (Entry.date e) = month today
                /\ year (Entry.date e) = year today)
  /\ (forall e, In e (result "This Year") <->
                In e (history_data s) /\ year (Entry.date e) = year today)
  /\ (forall e, In e (result "Custom Range") <->
                In e (history_data s)
                /\ date_leb start_date (Entry.date e) = true
                /\ date_leb (Entry.date e) end_date = true)
  /\ (forall d1 d2, isValid d1 = true -> isValid d2 = true ->
                    (date_leb d1 d2 = true <-> ~ earlier d2 d1)).
Proof.
  intros result. unfold result.
  assert (Hperm : forall ft, Permutation (filter_history s ft today start_date end_date)
                   (filter (keeps ft today start_date end_date) (history_data s))).
  { intros ft. rewrite filter_history_eq. apply filter_perm. apply sorted_perm. }
  split; [|split; [exact Hperm|split; [|split; [|split; [|split]]]]];
    [| | | | |apply date_leb_calendar].
  - intros ft. rewrite filter_history_eq. apply filter_sorted. apply sorted_desc_sorted.
  - apply perm_trans with (filter (keeps "All" today start_date end_date) (history_data s));
      [apply Hperm|].
    rewrite filter_all; [apply Permutation_refl|reflexivity].
  - intros e. rewrite filter_history_In. unfold keeps. cbn [String.eqb Ascii.eqb Bool.eqb].
    rewrite andb_true_iff, !Z.eqb_eq. tauto.
  - intros e. rewrite filter_history_In. unfold keeps. cbn [String.eqb Ascii.eqb Bool.eqb].
    rewrite Z.eqb_eq. tauto.
  - intros e. rewrite filter_history_In. unfold keeps.
    cbn [String.eqb Ascii.eqb Bool.eqb].
    rewrite andb_true_iff. tauto.
Qed.

(** ** Strings of the weekly keys *)

Lemma ascii_compare_refl (c : ascii) : Ascii.compare c c = Eq.
Proof. unfold Ascii.compare. apply N.compare_refl. Qed.

Lemma compare_common_prefix (p a b : string) :
  String.compare (p ++ a) (p ++ b) = String.compare a b.
Proof.
  induction p as [|c p IH]; simpl; [reflexivity|].
  rewrite ascii_compare_refl. exact IH.
Qed.

Lemma ltb_common_prefix (p a b : string) :
  String.ltb (p ++ a) (p ++ b) = String.ltb a b.
Proof. unfold String.ltb. rewrite compare_common_prefix. reflexivity. Qed.

Lemma split_first (sep : ascii) (a r : string) :
  free_of sep a = true ->
  split sep (a ++ String sep r) = a :: split sep r.
Proof.
  induction a as [|c a IH]; simpl; intros H.
  - rewrite Ascii.eqb_refl. reflexivity.
  - apply andb_true_iff in H. destruct H as [Hc Ha].
    apply negb_true_iff in Hc. rewrite Hc, (IH Ha). reflexivity.
Qed.

Lemma digits_free_of_minus (d : uint) :
  free_of "-" (NilEmpty.string_of_uint d) = true.
Proof. induction d; simpl; auto. Qed.

Lemma str_free_of_minus (y : Z) : 0 <= y -> free_of "-" (str y) = true.
Proof.
  intros H. unfold str. destruct y as [|p|p]; [reflexivity| |lia].
  cbn [Z.to_int NilZero.string_of_int]. unfold NilZero.string_of_uint.
  destruct (Pos.to_uint p); try reflexivity; apply (digits_free_of_minus (_ _)).
Qed.

Lemma int_str (y : Z) : int (str y) = Some y.
Proof.
  unfold int, str. rewrite NilZero.isi.
  - cbn [option_map]. rewrite DecimalZ.of_to. reflexivity.
  - destruct y; cbn [Z.to_int]; try discriminate.
    intros [= H]. exact (DecimalPos.Unsigned.to_uint_nonnil _ H).
  - destruct y; cbn [Z.to_int]; try discriminate.
    intros [= H]. exact (DecimalPos.Unsigned.to_uint_nonnil _ H).
Qed.

Lemma diverge_app (a b t t' : string) :
  diverge a b = true -> a ++ t <> b ++ t'.
Proof.
  revert b. induction a as [|c a IH]; intros [|c' b]; simpl; try discriminate.
  intros H [= Hc Hr]. subst c'. rewrite Ascii.eqb_refl in H. simpl in H.
  exact (IH b H Hr).
Qed.

(** ** The sixty (month, week) pairs *)

Lemma sort_key_eq (d : QDate) : sort_key d = str (year d) ++ key_suffix (month_week d).
Proof. reflexivity. Qed.

Lemma month_week_valid (d : QDate) :
  1 <= month d <= 12 -> 1 <= day d <= 31 -> In (month_week d) month_weeks.
Proof.
  intros Hm Hd. unfold month_week, month_weeks. apply in_prod.
  - assert (H : month d = 1 \/ month d = 2 \/ month d = 3 \/ month d = 4
                \/ month d = 5 \/ month d = 6 \/ month d = 7 \/ month d = 8
                \/ month d = 9 \/ month d = 10 \/ month d = 11 \/ month d = 12) by lia.
    simpl. intuition.
  - unfold week_of_month.
    assert (H : (day d - 1) / 7 + 1 = 1 \/ (day d - 1) / 7 + 1 = 2
                \/ (day d - 1) / 7 + 1 = 3 \/ (day d - 1) / 7 + 1 = 4
                \/ (day d - 1) / 7 + 1 = 5)
      by (Z.div_mod_to_equations; lia).
    simpl. intuition.
Qed.

Lemma key_order_table :
  forallb (fun p => forallb (fun q =>
    Bool.eqb (String.ltb (key_suffix p) (key_suffix q)) (pair_ltb p q))
    month_weeks) month_weeks = true.
Proof. vm_compute. reflexivity. Qed.

Lemma key_parse_table :
  forallb (fun p =>
    match map int (split "-" (format_02d (fst p) ++ "-" ++ str (snd p))) with
    | [Some m; Some w] => (m =? fst p) && (w =? snd p)
    | _ => false
    end) month_weeks = true.
Proof. vm_compute. reflexivity. Qed.

Lemma label_table :
  forallb (fun p => forallb (fun q =>
    pair_eqb p q || diverge (label_prefix p) (label_prefix q))
    month_weeks) month_weeks = true.
Proof. vm_compute. reflexivity. Qed.

Lemma key_order (y : Z) (p q : Z * Z) :
  In p month_weeks -> In q month_weeks ->
  String.ltb (str y ++ key_suffix p) (str y ++ key_suffix q) = pair_ltb p q.
Proof.
  intros Hp Hq. rewrite ltb_common_prefix.
  pose proof (proj1 (forallb_forall _ _) key_order_table p Hp) as H.
  pose proof (proj1 (forallb_forall _ _) H q Hq) as H'.
  apply Bool.eqb_prop. exact H'.
Qed.

Lemma pair_ltb_total (p q : Z * Z) :
  pair_ltb p q = false -> pair_ltb q p = false -> p = q.
Proof.
  destruct p as [m w], q as [m' w']. unfold pair_ltb. cbn [fst snd].
  intros H1 H2.
  apply orb_false_iff in H1. destruct H1 as [H1 H1'].
  apply orb_false_iff in H2. destruct H2 as [H2 H2'].
  apply Z.ltb_ge in H1. apply Z.ltb_ge in H2.
  assert (m = m') by lia. subst m'.
  rewrite Z.eqb_refl in H1', H2'. cbn [andb] in H1', H2'.
  apply Z.ltb_ge in H1'. apply Z.ltb_ge in H2'. f_equal. lia.
Qed.

Lemma ltb_irrefl (s : string) : String.ltb s s = false.
Proof.
  unfold String.ltb. replace (String.compare s s) with Eq; [reflexivity|].
  symmetry. induction s as [|c s IH]; simpl; [reflexivity|].
  rewrite ascii_compare_refl. exact IH.
Qed.

Lemma key_inj (y : Z) (p q : Z * Z) :
  In p month_weeks -> In q month_weeks ->
  str y ++ key_suffix p = str y ++ key_suffix q -> p = q.
Proof.
  intros Hp Hq E. apply pair_ltb_total.
  - rewrite <- (key_order y p q Hp Hq), E. apply ltb_irrefl.
  - rewrite <- (key_order y q p Hq Hp), E. apply ltb_irrefl.
Qed.

Lemma key_parse (y : Z) (p : Z * Z) :
  0 <= y -> In p month_weeks ->
  parse_key (str y ++ key_suffix p) = Some (y, fst p, snd p).
Proof.
  intros Hy Hp. unfold parse_key, key_suffix.
  change ("-" ++ format_02d (fst p) ++ "-" ++ str (snd p))
    with (String "-" (format_02d (fst p) ++ "-" ++ str (snd p))).
  rewrite (split_first _ _ _ (str_free_of_minus y Hy)).
  cbn [map]. rewrite int_str.
  pose proof (proj1 (forallb_forall _ _) key_parse_table p Hp) as H.
  cbv beta in H.
  destruct (map int (split "-" (format_02d (fst p) ++ "-" ++ str (snd p))))
    as [|[m|] [|[w|] [|? ?]]]; try discriminate H.
  apply andb_true_iff in H. destruct H as [Hm Hw].
  apply Z.eqb_eq in Hm. apply Z.eqb_eq in Hw. subst. reflexivity.
Qed.

Lemma label_inj (y : Z) (p q : Z * Z) :
  In p month_weeks -> In q month_weeks ->
  label_prefix p ++ str y = label_prefix q ++ str y -> p = q.
Proof.
  intros Hp Hq E.
  pose proof (proj1 (forallb_forall _ _) label_table p Hp) as H.
  pose proof (proj1 (forallb_forall _ _) H q Hq) as H'. cbv beta in H'.
  apply orb_true_iff in H'. destruct H' as [H'|H'].
  - unfold pair_eqb in H'. apply andb_true_iff in H'. destruct H' as [H1 H2].
    apply Z.eqb_eq in H1. apply Z.eqb_eq in H2.
    destruct p, q. cbn [fst snd] in *. congruence.
  - exfalso. exact (diverge_app _ _ _ _ H' E).
Qed.

(** ** Dicts *)

Section DictFacts.
Context {V : Type}.
Implicit Types (d : dict V) (k : string) (v : V).

Lemma dict_get_set_same k v d : dict_get k (dict_set k v d) = Some v.
Proof.
  induction d as [|[k' v'] r IH]; simpl.
  - rewrite String.eqb_refl. reflexivity.
  - destruct (String.eqb k k') eqn:E; simpl; rewrite E; [reflexivity|exact IH].
Qed.

Lemma dict_get_set_other k k' v d :
  k <> k' -> dict_get k' (dict_set k v d) = dict_get k' d.
Proof.
  intros Hne. induction d as [|[k0 v0] r IH]; simpl.
  - apply String.eqb_neq in Hne. rewrite String.eqb_sym, Hne. reflexivity.
  - destruct (String.eqb_spec k k0) as [->|E]; simpl.
    + destruct (String.eqb_spec k' k0) as [->|E']; [congruence|reflexivity].
    + rewrite IH. reflexivity.
Qed.

Lemma dict_set_set k v v' d : dict_set k v (dict_set k v' d) = dict_set k v d.
Proof.
  induction d as [|[k0 v0] r IH]; simpl.
  - rewrite String.eqb_refl. reflexivity.
  - destruct (String.eqb k k0) eqn:E; simpl; rewrite E; [reflexivity|].
    rewrite IH. reflexivity.
Qed.

Lemma dict_mem_In k d : dict_mem k d = true <-> In k (dict_keys d).
Proof.
  unfold dict_mem. induction d as [|[k0 v0] r IH]; simpl.
  - split; [discriminate|tauto].
  - destruct (String.eqb_spec k k0) as [->|Hne].
    + split; auto.
    + rewrite IH. split; [auto|]. intros [H|H]; [congruence|exact H].
Qed.

Lemma dict_set_present k v d :
  dict_mem k d = true -> dict_keys (dict_set k v d) = dict_keys d.
Proof.
  unfold dict_mem. induction d as [|[k0 v0] r IH]; simpl; [discriminate|].
  destruct (String.eqb k k0) eqn:E; simpl; [reflexivity|].
  intros H. rewrite (IH H). reflexivity.
Qed.

Lemma dict_set_new k v d :
  dict_mem k d = false -> dict_set k v d = (d ++ [(k, v)])%list.
Proof.
  unfold dict_mem. induction d as [|[k0 v0] r IH]; simpl; [reflexivity|].
  destruct (String.eqb k k0) eqn:E; simpl; [discriminate|].
  intros H. rewrite (IH H). reflexivity.
Qed.

Lemma dict_get_None k d : dict_mem k d = false -> dict_get k d = None.
Proof. unfold dict_mem. destruct (dict_get k d); [discriminate|reflexivity]. Qed.
End DictFacts.

(** ** The first loop of the weekly statistics *)

Lemma weekly_step_skip (year_ : Z) (D : dict bucket) (e : Entry.t) :
  (year (Entry.date e) =? year_) = false -> weekly_step year_ D e = D.
Proof. intros H. unfold weekly_step. rewrite H. reflexivity. Qed.

Lemma weekly_step_add (year_ : Z) (D : dict bucket) (e : Entry.t) :
  (year (Entry.date e) =? year_) = true ->
  weekly_step year_ D e =
  let b := match dict_get (sort_key (Entry.date e)) D with
           | Some b => b
           | None => mkBucket 0 0
           end in
  dict_set (sort_key (Entry.date e))
           (mkBucket (bucket_units b + Entry.units e)
                     (bucket_cost b + Entry.total_cost e)) D.
Proof.
  intros H. unfold weekly_step. rewrite H. cbn [negb].
  set (k := sort_key (Entry.date e)).
  destruct (dict_mem k D) eqn:M.
  - unfold dict_mem in M. destruct (dict_get k D) as [b|]; [|discriminate].
    cbn zeta. rewrite dict_set_set. reflexivity.
  - rewrite (dict_get_None k D M). rewrite dict_get_set_same.
    cbn zeta. rewrite !dict_set_set. reflexivity.
Qed.

Lemma sum_snoc (l : list Q) (x : Q) : sum (l ++ [x]) = (sum l + x)%Q.
Proof. unfold sum. rewrite fold_left_app. reflexivity. Qed.

Lemma period_bucket_skip (year_ : Z) (key : string) (l : list Entry.t) (e : Entry.t) :
  in_period year_ key e = false ->
  period_bucket year_ key (l ++ [e]) = period_bucket year_ key l.
Proof.
  intros H. unfold period_bucket. rewrite filter_app. simpl. rewrite H, app_nil_r.
  reflexivity.
Qed.

Lemma period_bucket_add (year_ : Z) (key : string) (l : list Entry.t) (e : Entry.t) :
  in_period year_ key e = true ->
  period_bucket year_ key (l ++ [e])
  = mkBucket (bucket_units (period_bucket year_ key l) + Entry.units e)
             (bucket_cost (period_bucket year_ key l) + Entry.total_cost e).
Proof.
  intros H. unfold period_bucket. rewrite filter_app. simpl. rewrite H.
  rewrite !map_app. simpl. rewrite !sum_snoc. reflexivity.
Qed.

Lemma filter_none {A : Type} (p : A -> bool) (l : list A) :
  (forall x, In x l -> p x = false) -> filter p l = [].
Proof.
  induction l as [|x r IH]; simpl; intros H; [reflexivity|].
  rewrite (H x (or_introl eq_refl)). apply IH. intros y Hy. apply H. right. exact Hy.
Qed.

Lemma in_period_key (year_ : Z) (key : string) (e : Entry.t) :
  in_period year_ key e = true ->
  year (Entry.date e) = year_ /\ sort_key (Entry.date e) = key.
Proof.
  unfold in_period. intros H. apply andb_true_iff in H. destruct H as [H1 H2].
  apply Z.eqb_eq in H1. apply String.eqb_eq in H2. auto.
Qed.

Lemma weekly_built_step (year_ : Z) (l : list Entry.t) (D : dict bucket) (e : Entry.t) :
  weekly_built year_ l D -> weekly_built year_ (l ++ [e]) (weekly_step year_ D e).
Proof.
  intros (Hnd & Hkeys & Hget).
  destruct (year (Entry.date e) =? year_) eqn:Hsel.
  - (* the entry is counted *)
    set (k0 := sort_key (Entry.date e)).
    assert (Hin0 : in_period year_ k0 e = true).
    { unfold in_period. rewrite Hsel. apply String.eqb_refl. }
    assert (Hother : forall key, key <> k0 -> in_period year_ key e = false).
    { intros key Hne. unfold in_period. rewrite Hsel. cbn [andb].
      apply String.eqb_neq. fold k0. congruence. }
    assert (Hb : match dict_get k0 D with Some b => b | None => mkBucket 0 0 end
                 = period_bucket year_ k0 l).
    { destruct (dict_mem k0 D) eqn:M.
      - apply dict_mem_In in M. rewrite (Hget k0 M). reflexivity.
      - rewrite (dict_get_None k0 D M). unfold period_bucket.
        rewrite filter_none; [reflexivity|].
        intros x Hx. destruct (in_period year_ k0 x) eqn:E; [|reflexivity].
        assert (Hk : In k0 (dict_keys D)) by (apply Hkeys; exists x; auto).
        apply dict_mem_In in Hk. congruence. }
    rewrite (weekly_step_add year_ D e Hsel). fold k0. cbv zeta. rewrite Hb.
    rewrite <- (period_bucket_add year_ k0 l e Hin0).
    set (B := period_bucket year_ k0 (l ++ [e])).
    assert (Hk' : forall key, In key (dict_keys (dict_set k0 B D))
                              <-> In key (dict_keys D) \/ key = k0).
    { intros key. destruct (dict_mem k0 D) eqn:M.
      - rewrite (dict_set_present k0 B D M). apply dict_mem_In in M.
        split; [auto|]. intros [H|H]; [exact H|subst; exact M].
      - rewrite (dict_set_new k0 B D M). unfold dict_keys. rewrite map_app, in_app_iff.
        simpl. intuition. }
    split; [|split].
    + destruct (dict_mem k0 D) eqn:M.
      * rewrite (dict_set_present k0 B D M). exact Hnd.
      * rewrite (dict_set_new k0 B D M). unfold dict_keys. rewrite map_app. simpl.
        apply NoDup_app; [exact Hnd|constructor; [simpl; tauto|constructor]|].
        intros x Hx [Hx'|[]]. subst x.
        apply dict_mem_In in Hx. unfold dict_keys in Hx. congruence.
    + intros key. rewrite Hk', Hkeys. split.
      * intros [[x [Hx Hp]] | ->].
        -- exists x. split; [apply in_or_app; left; exact Hx|exact Hp].
        -- exists e. split; [apply in_or_app; right; left; reflexivity|exact Hin0].
      * intros [x [Hx Hp]]. apply in_app_or in Hx. destruct Hx as [Hx|[<-|[]]].
        -- left. exists x. auto.
        -- right. symmetry. apply (in_period_key year_ key e Hp).
    + intros key Hk. apply Hk' in Hk.
      destruct (string_dec key k0) as [->|Hne].
      * apply dict_get_set_same.
      * rewrite dict_get_set_other by congruence.
        rewrite (period_bucket_skip year_ key l e (Hother key Hne)).
        apply Hget. destruct Hk as [Hk|Hk]; [exact Hk|contradiction].
  - (* the entry is of another year *)
    rewrite (weekly_step_skip year_ D e Hsel).
    assert (Hout : forall key, in_period year_ key e = false).
    { intros key. unfold in_period. rewrite Hsel. reflexivity. }
    split; [exact Hnd|split].
    + intros key. rewrite Hkeys. split; intros [x [Hx Hp]]; exists x; split; auto.
      * apply in_or_app. left. exact Hx.
      * apply in_app_or in Hx. destruct Hx as [Hx|[<-|[]]]; [exact Hx|].
        rewrite Hout in Hp. discriminate.
    + intros key Hk. rewrite (period_bucket_skip year_ key l e (Hout key)).
      apply Hget. exact Hk.
Qed.

Lemma weekly_built_fold (year_ : Z) (l : list Entry.t) :
  weekly_built year_ l (fold_left (weekly_step year_) l []).
Proof.
  induction l as [|e l IH] using rev_ind.
  - split; [constructor|split].
    + intros key. split; [intros []|intros [e [[] _]]].
    + intros key [].
  - rewrite fold_left_app. simpl. apply weekly_built_step. exact IH.
Qed.

(** ** The second loop of the weekly statistics *)

Lemma string_app_assoc (a b c : string) : (a ++ b) ++ c = a ++ b ++ c.
Proof. induction a as [|x a IH]; simpl; [reflexivity|]. rewrite IH. reflexivity. Qed.

Lemma week_label_eq (y : Z) (p : Z * Z) : week_label y p = label_prefix p ++ str y.
Proof.
  unfold week_label, label_prefix. rewrite !string_app_assoc. reflexivity.
Qed.

Lemma month_name_table :
  forallb (fun p =>
    match getitem month_name (fst p) with
    | Some name => String.eqb name (nth (Z.to_nat (fst p)) month_name "")
    | None => false
    end) month_weeks = true.
Proof. vm_compute. reflexivity. Qed.

Lemma display_key_valid (y : Z) (p : Z * Z) :
  In p month_weeks -> display_key y (fst p) (snd p) = Some (week_label y p).
Proof.
  intros Hp. unfold display_key, week_label.
  pose proof (proj1 (forallb_forall _ _) month_name_table p Hp) as H. cbv beta in H.
  destruct (getitem month_name (fst p)) as [name|]; [|discriminate].
  apply String.eqb_eq in H. rewrite H. reflexivity.
Qed.

Lemma week_label_inj (y : Z) (p q : Z * Z) :
  In p month_weeks -> In q month_weeks -> week_label y p = week_label y q -> p = q.
Proof. rewrite !week_label_eq. apply label_inj. Qed.

Section DisplayLoop.
Variables (D : dict bucket) (y : Z) (g : Z * Z -> bucket).
Hypothesis y_nonneg : 0 <= y.

Let f (p : Z * Z) : string := str y ++ key_suffix p.

Lemma display_step_valid (dd : dict bucket) (q : Z * Z) :
  In q month_weeks -> dict_get (f q) D = Some (g q) ->
  display_step D (Some dd) (f q) = Some (dict_set (week_label y q) (g q) dd).
Proof.
  intros Hq Hg. unfold display_step, f.
  rewrite (key_parse y q y_nonneg Hq), (display_key_valid y q Hq).
  fold (f q). rewrite Hg. reflexivity.
Qed.

Lemma display_fold (qs : list (Z * Z)) :
  (forall q, In q qs -> In q month_weeks /\ dict_get (f q) D = Some (g q)) ->
  forall acc,
    NoDup (dict_keys acc ++ map (week_label y) qs) ->
    fold_left (display_step D) (map f qs) (Some acc)
    = Some (acc ++ map (fun q => (week_label y q, g q)) qs)%list.
Proof.
  induction qs as [|q qs IH]; intros Hq acc Hnd; cbn [map fold_left].
  - rewrite app_nil_r. reflexivity.
  - destruct (Hq q (or_introl eq_refl)) as [Hv Hg].
    rewrite (display_step_valid acc q Hv Hg).
    assert (Hnew : dict_mem (week_label y q) acc = false).
    { destruct (dict_mem (week_label y q) acc) eqn:M; [|reflexivity].
      apply dict_mem_In in M. exfalso.
      cbn [map] in Hnd. apply NoDup_remove_2 in Hnd. apply Hnd.
      apply in_or_app. left. exact M. }
    rewrite (dict_set_new _ _ _ Hnew).
    rewrite IH.
    + rewrite <- app_assoc. reflexivity.
    + intros q' Hq'. apply Hq. right. exact Hq'.
    + unfold dict_keys. rewrite map_app, <- app_assoc. exact Hnd.
Qed.
End DisplayLoop.

(** ** Sorting through an order-preserving map *)

Section SortedMap.
Context {A B : Type} (ltA : A -> A -> bool) (ltB : B -> B -> bool) (f : A -> B).

Lemma insert_map (x : A) (r : list A) :
  (forall q, In q r -> ltB (f q) (f x) = ltA q x) ->
  insert ltB (f x) (map f r) = map f (insert ltA x r).
Proof.
  induction r as [|q r IH]; intros H; simpl; [reflexivity|].
  rewrite (H q (or_introl eq_refl)).
  destruct (ltA q x); [|reflexivity].
  simpl. rewrite IH; [reflexivity|]. intros q' Hq'. apply H. right. exact Hq'.
Qed.

Lemma sorted_map (l : list A) :
  (forall p q, In p l -> In q l -> ltB (f p) (f q) = ltA p q) ->
  sorted ltB (map f l) = map f (sorted ltA l).
Proof.
  induction l as [|x r IH]; intros H; simpl; [reflexivity|].
  rewrite IH by (intros p q Hp Hq; apply H; right; assumption).
  apply insert_map. intros q Hq. apply H; [right|left; reflexivity].
  apply (Permutation_in q (sorted_perm ltA r)). exact Hq.
Qed.
End SortedMap.

Lemma map_preimage {A B : Type} (P : A -> Prop) (f : A -> B) (xs : list B) :
  (forall x, In x xs -> exists p, P p /\ x = f p) ->
  exists ps, Forall P ps /\ xs = map f ps.
Proof.
  induction xs as [|x xs IH]; intros H.
  - exists []. split; [constructor|reflexivity].
  - destruct (H x (or_introl eq_refl)) as [p [Hp ->]].
    destruct IH as [ps [Hps ->]]; [intros x' Hx'; apply H; right; exact Hx'|].
    exists (p :: ps). split; [constructor; assumption|reflexivity].
Qed.

Lemma sorted_strict {A : Type} (R S : A -> A -> Prop) (l : list A) :
  (forall x y, R x y -> x <> y -> S x y) ->
  StronglySorted R l -> NoDup l -> StronglySorted S l.
Proof.
  intros HRS. induction 1 as [|x r Hs IH Hx]; intros Hnd; [constructor|].
  inversion Hnd as [|? ? Hnotin Hnd']; subst.
  constructor; [apply IH; exact Hnd'|].
  apply Forall_forall. intros z Hz. apply HRS.
  - apply (proj1 (Forall_forall _ _) Hx z Hz).
  - intros ->. contradiction.
Qed.

(** ** Weekly statistics, end to end *)

Lemma pair_ltb_lt (p q : Z * Z) : pair_ltb p q = true <-> pair_lt p q.
Proof.
  unfold pair_ltb, pair_lt.
  rewrite orb_true_iff, andb_true_iff, !Z.ltb_lt, Z.eqb_eq. tauto.
Qed.

Lemma pair_ltb_ge (p q : Z * Z) : pair_ltb p q = false <-> ~ pair_lt p q.
Proof.
  rewrite <- pair_ltb_lt. destruct (pair_ltb p q); split; intros; congruence.
Qed.

Lemma sorted_pairs (ps : list (Z * Z)) :
  NoDup ps -> StronglySorted pair_lt (sorted pair_ltb ps).
Proof.
  intros Hnd.
  apply (sorted_strict (fun x y => pair_ltb y x = false)).
  - intros x y Hxy Hne. apply pair_ltb_lt.
    destruct (pair_ltb x y) eqn:E; [reflexivity|].
    exfalso. apply Hne. apply pair_ltb_total; assumption.
  - apply sorted_sorted.
    + intros x y H. apply pair_ltb_lt in H. apply pair_ltb_ge.
      unfold pair_lt in *. lia.
    + intros x y H. exact H.
    + intros x y z H1 H2. apply pair_ltb_ge in H1. apply pair_ltb_ge in H2.
      apply pair_ltb_ge. unfold pair_lt in *. lia.
  - apply (Permutation_NoDup (Permutation_sym (sorted_perm pair_ltb ps))). exact Hnd.
Qed.

Lemma NoDup_map_on {A B : Type} (f : A -> B) (l : list A) :
  (forall p q, In p l -> In q l -> f p = f q -> p = q) ->
  NoDup l -> NoDup (map f l).
Proof.
  induction l as [|x r IH]; intros Hinj Hnd; simpl; [constructor|].
  inversion Hnd as [|? ? Hx Hr]; subst. constructor.
  - intros Hin. apply in_map_iff in Hin. destruct Hin as [z [Hz Hzin]].
    assert (z = x) by (apply Hinj; [right; exact Hzin|left; reflexivity|exact Hz]).
    subst z. contradiction.
  - apply IH; [|exact Hr]. intros p q Hp Hq. apply Hinj; right; assumption.
Qed.

Lemma in_period_week (year_ : Z) (q : Z * Z) (e : Entry.t) :
  (year (Entry.date e) = year_ -> In (month_week (Entry.date e)) month_weeks) ->
  In q month_weeks ->
  in_period year_ (str year_ ++ key_suffix q) e = in_week year_ q e.
Proof.
  intros Hv Hq. unfold in_period, in_week.
  destruct (Z.eqb_spec (year (Entry.date e)) year_) as [Hy|Hy]; [|reflexivity].
  cbn [andb]. rewrite sort_key_eq, Hy.
  destruct (String.eqb_spec (str year_ ++ key_suffix (month_week (Entry.date e)))
                            (str year_ ++ key_suffix q)) as [E|E].
  - apply (key_inj year_ _ _ (Hv Hy) Hq) in E. rewrite <- E. unfold month_week.
    cbn [fst snd]. unfold week_of_month. rewrite !Z.eqb_refl. reflexivity.
  - destruct (Z.eqb_spec (month (Entry.date e)) (fst q)) as [E1|E1]; [|reflexivity].
    destruct (Z.eqb_spec ((day (Entry.date e) - 1) / 7 + 1) (snd q)) as [E2|E2];
      [|reflexivity].
    exfalso. apply E. f_equal. f_equal. unfold month_week, week_of_month.
    destruct q. cbn [fst snd] in *. congruence.
Qed.

Lemma weekly_stats_weeks (s : tracker) (year_ : Z) :
  0 <= year_ -> dated_in year_ (history_data s) ->
  exists weeks : list (Z * Z),
    show_weekly_stats s year_
    = Some (map (fun p => (week_label year_ p, week_bucket s year_ p)) weeks)
    /\ StronglySorted pair_lt weeks
    /\ forall m w, In (m, w) weeks <->
         exists e, In e (history_data s)
                   /\ year (Entry.date e) = year_
                   /\ month (Entry.date e) = m
                   /\ (day (Entry.date e) - 1) / 7 + 1 = w.
Proof.
  intros Hy Hdated.
  set (l := history_data s).
  set (f := fun p : Z * Z => str year_ ++ key_suffix p).
  destruct (weekly_built_fold year_ l) as (Hnd & Hkeys & Hget).
  set (D := fold_left (weekly_step year_) l []) in *.
  assert (Hvalid : forall e, In e l -> year (Entry.date e) = year_ ->
                             In (month_week (Entry.date e)) month_weeks).
  { intros e He Hyr. destruct (Hdated e He Hyr). apply month_week_valid; assumption. }
  destruct (map_preimage (fun p => In p month_weeks) f (dict_keys D)) as [ps [Hps Eks]].
  { intros x Hx. apply Hkeys in Hx. destruct Hx as [e [He Hp]].
    apply in_period_key in Hp. destruct Hp as [Hyr Hk].
    exists (month_week (Entry.date e)). split; [apply Hvalid; assumption|].
    rewrite <- Hk, sort_key_eq, Hyr. reflexivity. }
  pose proof (proj1 (Forall_forall _ _) Hps) as Hps'.
  assert (Hndps : NoDup ps).
  { apply (NoDup_map_inv f). rewrite <- Eks. exact Hnd. }
  set (qs := sorted pair_ltb ps).
  assert (Hperm : Permutation qs ps) by apply sorted_perm.
  assert (Hqs : forall q, In q qs -> In q month_weeks).
  { intros q Hq. apply Hps'. apply (Permutation_in q Hperm Hq). }
  assert (Hbucket : forall q, In q qs ->
            period_bucket year_ (f q) l = week_bucket s year_ q).
  { intros q Hq. unfold period_bucket, week_bucket. fold l.
    rewrite (filter_ext_in (in_period year_ (f q)) (in_week year_ q) l); [reflexivity|].
    intros e He. apply in_period_week; [apply Hvalid; exact He|apply Hqs; exact Hq]. }
  exists qs. split; [|split].
  - unfold show_weekly_stats. fold l. fold D. rewrite Eks.
    rewrite (sorted_map pair_ltb String.ltb f ps)
      by (intros p q Hp Hq; apply key_order; apply Hps'; assumption).
    fold qs.
    rewrite (display_fold D year_ (fun q => period_bucket year_ (f q) l) Hy qs).
    + cbn [app]. f_equal. apply map_ext_in. intros q Hq.
      rewrite (Hbucket q Hq). reflexivity.
    + intros q Hq. split; [apply Hqs; exact Hq|].
      apply Hget. rewrite Eks. apply in_map. apply (Permutation_in q Hperm Hq).
    + cbn [dict_keys map app]. apply NoDup_map_on.
      * intros p q Hp Hq. apply week_label_inj; apply Hqs; assumption.
      * apply (Permutation_NoDup (Permutation_sym Hperm)). exact Hndps.
  - apply sorted_pairs. exact Hndps.
  - intros m w. split.
    + intros Hin.
      assert (Hk : In (f (m, w)) (dict_keys D)).
      { rewrite Eks. apply in_map. apply (Permutation_in _ Hperm Hin). }
      apply Hkeys in Hk. destruct Hk as [e [He Hp]].
      unfold f in Hp.
      rewrite (in_period_week year_ (m, w) e (Hvalid e He) (Hqs _ Hin)) in Hp.
      unfold in_week in Hp. cbn [fst snd] in Hp.
      apply andb_true_iff in Hp. destruct Hp as [Hp H3].
      apply andb_true_iff in Hp. destruct Hp as [H1 H2].
      apply Z.eqb_eq in H1. apply Z.eqb_eq in H2. apply Z.eqb_eq in H3.
      exists e. auto.
    + intros [e [He [Hyr [Hm Hw]]]].
      assert (Hk : In (sort_key (Entry.date e)) (dict_keys D)).
      { apply Hkeys. exists e. split; [exact He|].
        unfold in_period. rewrite Hyr, Z.eqb_refl. apply String.eqb_refl. }
      rewrite Eks in Hk. apply in_map_iff in Hk. destruct Hk as [p [Hfp Hp]].
      unfold f in Hfp. rewrite sort_key_eq, Hyr in Hfp.
      apply (key_inj year_ _ _ (Hps' p Hp) (Hvalid e He Hyr)) in Hfp.
      apply (Permutation_in _ (Permutation_sym Hperm)).
      replace (m, w) with p; [exact Hp|].
      rewrite Hfp. unfold month_week, week_of_month. congruence.
Qed.

(** C3. For a selected year, [show_weekly_stats] plots one bucket per
    (month, week) that has an entry of that year, where the week of an
    entry of day [d] is [(d - 1) / 7 + 1] within the entry's own month; the
    bucket sums the units and costs of exactly these entries and is
    labelled with the ordinal of the week, the month name and the year; the
    buckets come in increasing (month, week) order, that is
    chronologically.  Days 29 to 31 fall in week 5: 29-01-2024 and
    31-01-2024 share the 5th week of January 2024, 01-02-2024 is in the 1st
    week of February, plotted after it. *)
Theorem weekly_buckets (s : tracker) (year_ : Z)
  (Hyear : 0 <= year_) (Hdated : dated_in year_ (history_data s)) :
  (exists weeks : list (Z * Z),
      show_weekly_stats s year_
      = Some (map (fun p => (week_label year_ p, week_bucket s year_ p)) weeks)
      /\ StronglySorted pair_lt weeks
      /\ forall m w, In (m, w) weeks <->
           exists e, In e (history_data s)
                     /\ year (Entry.date e) = year_
                     /\ month (Entry.date e) = m
                     /\ (day (Entry.date e) - 1) / 7 + 1 = w)
  /\ (forall d : QDate, 29 <= day d <= 31 -> week_of_month d = 5)
  /\ (week_of_month (mkDate 2024 1 29) = 5
      /\ week_of_month (mkDate 2024 1 31) = 5
      /\ week_of_month (mkDate 2024 2 1) = 1)
  /\ show_weekly_stats weekly_example 2024
     = Some [("5th week January 2024", mkBucket 35 420);
             ("1st week February 2024", mkBucket 10 120)].
Proof.
  split; [apply weekly_stats_weeks; assumption|].
  split; [|split; [repeat split|vm_compute; reflexivity]].
  intros d Hd. unfold week_of_month. Z.div_mod_to_equations. lia.
Qed.

Lemma weekly_buckets_witness :
  exists weeks : list (Z * Z),
    show_weekly_stats weekly_example 2024
    = Some (map (fun p => (week_label 2024 p, week_bucket weekly_example 2024 p)) weeks)
    /\ StronglySorted pair_lt weeks
    /\ forall m w, In (m, w) weeks <->
         exists e, In e (history_data weekly_example)
                   /\ year (Entry.date e) = 2024
                   /\ month (Entry.date e) = m
                   /\ (day (Entry.date e) - 1) / 7 + 1 = w.
Proof.
  refine (proj1 (weekly_buckets weekly_example 2024 _ _)); [lia|].
  intros e He _. vm_compute in He.
  destruct He as [<-|[<-|[<-|[]]]]; cbn; lia.
Defined.

(** * Further properties of the tracker *)

(** ** Restart *)

Lemma in_sync_restartable (s : tracker) : in_sync s -> restartable s.
Proof.
  intros (Hc & Hr & Hh & Hd & _). unfold restartable, init.
  destruct (load_history (files s)) as [h m1].
  destruct (load_devices (files s)) as [d m2].
  cbn [fst] in *. subst h d.
  destruct s as [c h d r f]. cbn in *. subst c.
  unfold reading_fresh in Hr. cbn in Hr.
  unfold refresh_current_reading, set_current_reading, get_initial_reading.
  cbn. unfold get_initial_reading in Hr. cbn in Hr. rewrite <- Hr. reflexivity.
Qed.

Lemma init_in_sync (f : disk) : all_writable f -> in_sync (fst (init f)).
Proof.
  intros Hw. unfold init, load_history, load_devices.
  destruct f as [hf rf df hw rw dw].
  destruct hf, df; cbn; repeat split; try reflexivity; apply Hw.
Qed.

Ltac open_tracker s :=
  destruct s as [c h d r [hf rf df hw rw dw]];
  unfold in_sync, all_writable, reading_fresh in *; cbn in *.

Lemma perform_in_sync (s : tracker) (a : action) :
  in_sync s -> in_sync (fst (perform s a)).
Proof.
  intros H. destruct a as [input|input dt| |text power hours|n]; cbn [perform].
  - unfold set_initial_reading. destruct input as [x|]; [|exact H].
    destruct (Qltb x 0); [exact H|].
    open_tracker s. destruct H as (Hc & Hr & Hh & Hd & Hw1 & Hw2 & Hw3).
    subst rw. cbn. repeat split; auto.
  - unfold save_entry. destruct input as [b|]; [|exact H].
    destruct (Qltb (b - current_reading s) 0); [exact H|].
    unfold save_history.
    open_tracker s. destruct H as (Hc & Hr & Hh & Hd & Hw1 & Hw2 & Hw3).
    subst hw. cbn. repeat split; auto.
  - unfold reset_data.
    open_tracker s. destruct H as (Hc & Hr & Hh & Hd & Hw1 & Hw2 & Hw3).
    subst hw rw. rewrite !andb_false_r. cbn. repeat split; auto.
  - unfold add_device.
    destruct power as [p|], hours as [hr|]; try exact H.
    destruct (String.eqb (strip text) ""); [exact H|].
    destruct (Qle_bool p 0 || Qle_bool hr 0); [exact H|].
    destruct (Qltb 24 hr); [exact H|].
    destruct (has_name_ci (strip text) (devices_data s)); [exact H|].
    unfold save_devices.
    open_tracker s. destruct H as (Hc & Hr & Hh & Hd & Hw1 & Hw2 & Hw3).
    subst dw. cbn. repeat split; auto.
  - unfold remove_device, save_devices.
    open_tracker s. destruct H as (Hc & Hr & Hh & Hd & Hw1 & Hw2 & Hw3).
    subst dw. cbn. repeat split; auto.
Qed.

Lemma reachable_in_sync (f : disk) (s : tracker) :
  all_writable f -> reachable f s -> in_sync s.
Proof.
  intros Hw. induction 1 as [|s a _ IH];
    [apply init_in_sync; exact Hw|apply perform_in_sync; exact IH].
Qed.

(** X1. When the three files are writable at start, every tracker of the
    session is what a restart would load: the ledger, the devices and the
    current reading in memory are those recovered from the files. *)
Theorem restart_recovers_session (f : disk) (s : tracker)
  (Hw : all_writable f) (Hreach : reachable f s) :
  restartable s.
Proof.
  apply in_sync_restartable. apply (reachable_in_sync f s Hw Hreach).
Qed.

Lemma restart_recovers_session_witness : restartable back_dated.
Proof.
  refine (restart_recovers_session empty_disk back_dated _ _).
  - repeat split.
  - apply (reach_step empty_disk _ (do_save_entry (Some 170%Q) (mkDate 2024 1 5))).
    apply (reach_step empty_disk _ (do_save_entry (Some 150%Q) (mkDate 2024 1 10))).
    apply (reach_step empty_disk _ (do_set_initial_reading (Some 100%Q))).
    apply reach_init.
Defined.

(** ** The initial reading *)

(** X2. Once the ledger has an entry, [set_initial_reading] no longer
    moves the current reading: whatever number is typed, the ledger and the
    current reading stay as they were; an accepted number only replaces the
    content of the initial-reading file. *)
Theorem initial_reading_inert (s : tracker) (input : option Q)
  (Hfresh : reading_fresh s) (Hledger : history_data s <> []) :
  current_reading (fst (set_initial_reading s input)) = current_reading s
  /\ history_data (fst (set_initial_reading s input)) = history_data s
  /\ (forall x, input = Some x -> (0 <= x)%Q ->
                initial_reading_writable (files s) = true ->
                initial_reading_file (files (fst (set_initial_reading s input)))
                = stored x).
Proof.
  unfold set_initial_reading.
  destruct input as [x|]; [|repeat split; intros; discriminate].
  destruct (Qltb x 0) eqn:Ex.
  - repeat split. intros y [= <-] Hy _. apply Qltb_lt in Ex.
    exfalso. exact (Qlt_not_le _ _ Ex Hy).
  - destruct (initial_reading_writable (files s)) eqn:Ew;
      [|repeat split; intros; discriminate].
    unfold reading_fresh, get_initial_reading in Hfresh.
    unfold refresh_current_reading, get_initial_reading. cbn.
    destruct (history_data s) as [|e l]; [congruence|].
    repeat split; [symmetry; exact Hfresh|]. intros y [= <-] _ _. reflexivity.
Qed.

Lemma initial_reading_inert_witness :
  current_reading (fst (set_initial_reading back_dated (Some 5%Q)))
  = current_reading back_dated.
Proof.
  refine (proj1 (initial_reading_inert back_dated (Some 5%Q) _ _)).
  - reflexivity.
  - vm_compute. discriminate.
Defined.

(** X3. On an empty ledger, a non-negative number typed as initial reading
    becomes the current reading and the content of the initial-reading
    file when that file can be written; when it cannot, the tracker is left
    as it was and the file error is shown. *)
Theorem initial_reading_set (s : tracker) (x : Q)
  (Hledger : history_data s = []) (Hx : (0 <= x)%Q) :
  (initial_reading_writable (files s) = true ->
     current_reading (fst (set_initial_reading s (Some x))) = x
     /\ initial_reading_file (files (fst (set_initial_reading s (Some x)))) = stored x
     /\ snd (set_initial_reading s (Some x)) = [information "Success"])
  /\ (initial_reading_writable (files s) = false ->
        set_initial_reading s (Some x) = (s, [critical "File Error"])).
Proof.
  unfold set_initial_reading. apply Qltb_ge in Hx. rewrite Hx.
  split; intros Hw; rewrite Hw; [|reflexivity].
  unfold refresh_current_reading, get_initial_reading. cbn. rewrite Hledger.
  repeat split.
Qed.

Lemma initial_reading_set_witness :
  current_reading (fst (set_initial_reading (fst (init empty_disk)) (Some 100%Q)))
  = 100%Q.
Proof.
  refine (proj1 (proj1 (initial_reading_set (fst (init empty_disk)) 100%Q _ _) _)).
  - reflexivity.
  - vm_compute. discriminate.
  - reflexivity.
Defined.

(** ** Reset *)

Lemma removable_guard {A : Type} (content : file A) (writable : bool) :
  removable content writable ->
  (match content with absent => false | _ => true end) && negb writable = false.
Proof. intros [->| ->]; [reflexivity|apply andb_false_r]. Qed.

(** X4. When both the history and the initial-reading file can be removed
    (or are not there), [reset_data] empties the ledger, puts the current
    reading at 0 and leaves neither file behind; the devices, in memory and
    on disk, are not touched. *)
Theorem reset_clears_ledger (s : tracker)
  (Hh : removable (history_file (files s)) (history_writable (files s)))
  (Hi : removable (initial_reading_file (files s))
                  (initial_reading_writable (files s))) :
  let s' := fst (reset_data s) in
  snd (reset_data s) = [information "Reset Complete"]
  /\ history_data s' = [] /\ current_reading s' = 0%Q
  /\ get_initial_reading s' = 0%Q
  /\ history_file (files s') = absent
  /\ initial_reading_file (files s') = absent
  /\ devices_data s' = devices_data s
  /\ devices_file (files s') = devices_file (files s)
  /\ unit_cost s' = unit_cost s.
Proof.
  unfold reset_data. rewrite (removable_guard _ _ Hh).
  cbn [initial_reading_file initial_reading_writable].
  rewrite (removable_guard _ _ Hi). cbn. repeat split.
Qed.

Lemma reset_clears_ledger_witness :
  history_data (fst (reset_data back_dated)) = []
  /\ current_reading (fst (reset_data back_dated)) = 0%Q.
Proof.
  pose proof (reset_clears_ledger back_dated
                ltac:(right; reflexivity) ltac:(right; reflexivity)) as H.
  cbv zeta in H. split; apply H.
Defined.

(** X5. When the history file is removed but the initial-reading file
    exists and cannot be removed, [reset_data] stops with its error box
    half-way: the ledger in memory and the current reading are kept, the
    history file is gone, so a restart would find an empty ledger. *)
Theorem reset_half_done (s : tracker)
  (Hh : history_writable (files s) = true)
  (Hi : initial_reading_file (files s) <> absent)
  (Hw : initial_reading_writable (files s) = false) :
  let s' := fst (reset_data s) in
  snd (reset_data s) = [warning "Error"]
  /\ history_data s' = history_data s
  /\ current_reading s' = current_reading s
  /\ history_file (files s') = absent
  /\ initial_reading_file (files s') = initial_reading_file (files s)
  /\ history_data (fst (init (files s'))) = [].
Proof.
  unfold reset_data. rewrite Hh, andb_false_r.
  cbn [initial_reading_file initial_reading_writable]. rewrite Hw.
  destruct (initial_reading_file (files s)) eqn:E; [congruence| |];
    cbn; repeat split;
    unfold init, load_history; cbn; destruct (load_devices _); reflexivity.
Qed.

Lemma reset_half_done_witness :
  history_data (fst (reset_data initial_locked)) = history_data initial_locked
  /\ history_file (files (fst (reset_data initial_locked))) = absent.
Proof.
  pose proof (reset_half_done initial_locked eq_refl
                ltac:(vm_compute; discriminate) eq_refl) as H.
  cbv zeta in H. split; apply H.
Defined.

(** ** Saving after a failed load *)

(** X6. A history file that cannot be read is reported at start and the
    session begins with an empty ledger; the first accepted [save_entry]
    then replaces the unreadable file by a ledger of that single entry. *)
Theorem corrupt_history_overwritten (f : disk) (b : Q) (d : QDate)
  (Hc : history_file f = corrupt) (Hw : history_writable f = true)
  (Hb : (current_reading (fst (init f)) <= b)%Q) :
  In (critical "Load Error") (snd (init f))
  /\ history_data (fst (init f)) = []
  /\ history_file (files (fst (save_entry (fst (init f)) (Some b) d)))
     = stored [new_entry (fst (init f)) b d].
Proof.
  apply consumption_sign in Hb.
  unfold save_entry. rewrite Hb. clear Hb.
  unfold init, load_history, save_history. rewrite Hc.
  destruct (load_devices f) as [dv m]. cbn. rewrite Hw. cbn.
  repeat split. left. reflexivity.
Qed.

Lemma corrupt_history_overwritten_witness :
  history_file (files (fst (save_entry (fst (init corrupt_disk)) (Some 120%Q)
                                       (mkDate 2024 3 1))))
  = stored [new_entry (fst (init corrupt_disk)) 120%Q (mkDate 2024 3 1)].
Proof.
  refine (proj2 (proj2 (corrupt_history_overwritten corrupt_disk 120%Q
                          (mkDate 2024 3 1) eq_refl eq_refl _))).
  vm_compute. discriminate.
Defined.

(** ** How the current reading moves *)

Lemma max_from_snoc {A : Type} (key : A -> Z) (l : list A) (x : A) :
  forall best,
    max_from key best (l ++ [x])
    = if key (max_from key best l) <? key x then x else max_from key best l.
Proof.
  induction l as [|y l IH]; intros best; simpl; [reflexivity|apply IH].
Qed.

Lemma max_from_first {A : Type} (key : A -> Z) (l : list A) :
  forall best, exists l1 l2,
    best :: l = (l1 ++ max_from key best l :: l2)%list
    /\ (forall x, In x l1 -> key x < key (max_from key best l))
    /\ (forall x, In x l2 -> key x <= key (max_from key best l)).
Proof.
  induction l as [|x l IH] using rev_ind; intros best.
  - exists [], []. repeat split; intros x [].
  - destruct (IH best) as (l1 & l2 & E & H1 & H2).
    rewrite max_from_snoc. set (m := max_from key best l) in *.
    destruct (key m <? key x) eqn:Hlt.
    + apply Z.ltb_lt in Hlt. exists (best :: l), []. split; [|split].
      * rewrite app_comm_cons. reflexivity.
      * intros y Hy. rewrite E in Hy. apply in_app_or in Hy.
        destruct Hy as [Hy|[<-|Hy]]; [specialize (H1 y Hy)|
                                      |specialize (H2 y Hy)]; lia.
      * intros y [].
    + apply Z.ltb_ge in Hlt. exists l1, (l2 ++ [x])%list. split; [|split].
      * rewrite app_comm_cons, E, <- app_assoc. reflexivity.
      * exact H1.
      * intros y Hy. apply in_app_or in Hy.
        destruct Hy as [Hy|[<-|[]]]; [apply H2; exact Hy|exact Hlt].
Qed.

(** X7. Among the entries that share the latest date, the current reading
    is taken from the one appended first: the ledger splits into entries
    strictly earlier in date, then the chosen entry, then entries that are
    not later. *)
Theorem first_latest_entry_wins (s : tracker) (Hledger : history_data s <> []) :
  exists l1 e l2,
    history_data s = (l1 ++ e :: l2)%list
    /\ (forall x, In x l1 -> julian x < julian e)
    /\ (forall x, In x l2 -> julian x <= julian e)
    /\ get_initial_reading s = Entry.new_reading e.
Proof.
  unfold get_initial_reading.
  destruct (history_data s) as [|e0 l]; [congruence|].
  destruct (max_from_first julian l e0) as (l1 & l2 & E & H1 & H2).
  exists l1, (max_from julian e0 l), l2. auto.
Qed.

Lemma first_latest_entry_wins_witness :
  exists l1 e l2,
    history_data back_dated = (l1 ++ e :: l2)%list
    /\ (forall x, In x l1 -> julian x < julian e)
    /\ (forall x, In x l2 -> julian x <= julian e)
    /\ get_initial_reading back_dated = Entry.new_reading e.
Proof.
  refine (first_latest_entry_wins back_dated _).
  vm_compute. discriminate.
Defined.

Lemma max_from_later {A : Type} (key : A -> Z) (l : list A) (best : A) (j : Z) :
  key (max_from key best l) < j <-> (forall x, In x (best :: l) -> key x < j).
Proof.
  split.
  - intros H x Hx. pose proof (max_from_upper key l best x Hx). lia.
  - intros H. apply H. apply max_from_In.
Qed.

Lemma save_entry_reading (s : tracker) (b : Q) (d : QDate) :
  Qltb (b - current_reading s) 0 = false ->
  current_reading (fst (save_entry s (Some b) d))
  = match history_data s with
    | [] => b
    | e :: l =>
        if julian (max_from julian e l) <? toJulianDay d then b
        else Entry.new_reading (max_from julian e l)
    end.
Proof.
  intros H. unfold save_entry. rewrite H. unfold save_history.
  destruct s as [c h dv r [hf rf df hw rw dw]]. cbn.
  destruct hw; cbn; unfold get_initial_reading; cbn;
    (destruct h as [|e l]; cbn; [reflexivity|]);
    rewrite max_from_snoc; unfold julian; cbn [Entry.date];
    destruct (_ <? toJulianDay d); reflexivity.
Qed.

(** X8. An accepted [save_entry] moves the current reading to the new
    reading exactly when the chosen date is strictly later than every date
    of the ledger; a date that is not later leaves the current reading
    where it was.  Either way the current reading does not decrease. *)
Theorem save_entry_moves_reading (s : tracker) (b : Q) (d : QDate)
  (Hfresh : reading_fresh s) (Hb : (current_reading s <= b)%Q) :
  let s' := fst (save_entry s (Some b) d) in
  ((forall e, In e (history_data s) -> julian e < toJulianDay d) ->
     current_reading s' = b)
  /\ ((exists e, In e (history_data s) /\ toJulianDay d <= julian e) ->
        current_reading s' = current_reading s)
  /\ (current_reading s <= current_reading s')%Q.
Proof.
  intros s'. unfold s'. apply consumption_sign in Hb.
  pose proof Hb as Hle. apply consumption_sign in Hle.
  rewrite (save_entry_reading s b d Hb).
  unfold reading_fresh, get_initial_reading in Hfresh.
  destruct (history_data s) as [|e l].
  - repeat split; [intros [x [[] _]]|exact Hle].
  - destruct (julian (max_from julian e l) <? toJulianDay d) eqn:E.
    + apply Z.ltb_lt in E. repeat split; [|exact Hle].
      intros [x [Hx Hd]].
      pose proof (proj1 (max_from_later julian l e _) E x Hx). lia.
    + apply Z.ltb_ge in E. rewrite <- Hfresh. repeat split.
      * intros Hall. apply (max_from_later julian l e) in Hall. lia.
      * apply Qle_refl.
Qed.

Lemma save_entry_moves_reading_witness :
  current_reading (fst (save_entry after_jan10 (Some 170%Q) (mkDate 2024 1 5)))
  = current_reading after_jan10.
Proof.
  refine (proj1 (proj2 (save_entry_moves_reading after_jan10 170%Q
                          (mkDate 2024 1 5) _ _)) _).
  - reflexivity.
  - vm_compute. discriminate.
  - exists (new_entry fresh_100 150%Q (mkDate 2024 1 10)).
    split; [left; reflexivity|vm_compute; discriminate].
Defined.

(** ** Stability of the history table *)

Lemma filter_insert_day (j : Z) (x : Entry.t) (r : list Entry.t) :
  filter (on_day j) (insert later_first x r)
  = if on_day j x then x :: filter (on_day j) r else filter (on_day j) r.
Proof.
  induction r as [|y r IH]; simpl; [reflexivity|].
  destruct (later_first y x) eqn:Hl; simpl; [|reflexivity].
  rewrite IH. unfold later_first, date_ltb in Hl. apply Z.ltb_lt in Hl.
  unfold on_day, julian in *.
  destruct (Z.eqb_spec (toJulianDay (Entry.date y)) j) as [Ey|Ey];
    [|reflexivity].
  destruct (Z.eqb_spec (toJulianDay (Entry.date x)) j) as [Ex|Ex];
    [lia|reflexivity].
Qed.

Lemma filter_sorted_day (j : Z) (l : list Entry.t) :
  filter (on_day j) (sorted later_first l) = filter (on_day j) l.
Proof.
  induction l as [|x r IH]; simpl; [reflexivity|].
  rewrite filter_insert_day, IH. reflexivity.
Qed.

Lemma filter_comm {A : Type} (p q : A -> bool) (l : list A) :
  filter p (filter q l) = filter q (filter p l).
Proof.
  induction l as [|x r IH]; simpl; [reflexivity|].
  destruct (p x) eqn:Hp, (q x) eqn:Hq; simpl; rewrite ?Hp, ?Hq, IH; reflexivity.
Qed.

(** X9. [filter_history] keeps the ledger order among entries of the same
    date: the rows of any one day are the kept entries of that day in the
    order in which they were saved. *)
Theorem filter_history_stable (s : tracker) (filter_type : string)
  (today start_date end_date : QDate) (j : Z) :
  filter (on_day j) (filter_history s filter_type today start_date end_date)
  = filter (on_day j)
      (filter (keeps filter_type today start_date end_date) (history_data s)).
Proof.
  rewrite filter_history_eq, filter_comm, filter_sorted_day. apply filter_comm.
Qed.

(** ** The live consumption label *)

(** X10. For a number typed as new reading, the consumption label warns
    exactly when [save_entry] and [calculate_bill] refuse it, and otherwise
    shows the units of the entry that [save_entry] appends; a reading equal
    to the current one is accepted, with no consumption.  An empty field
    shows a consumption of 0 although [save_entry] refuses it. *)
Theorem consumption_label_agrees (s : tracker) (b : Q) (d : QDate) :
  (update_consumption s (typed (Some b)) = must_be_higher
   <-> save_entry s (Some b) d = (s, [warning "Invalid Input"]))
  /\ (update_consumption s (typed (Some b)) = must_be_higher
      <-> calculate_bill s (Some b) = bill_warning (warning "Invalid Input"))
  /\ (forall c, update_consumption s (typed (Some b)) = consumption_units c ->
        exists e, history_data (fst (save_entry s (Some b) d))
                  = (history_data s ++ [e])%list
                  /\ Entry.units e = c
                  /\ calculate_bill s (Some b) = cost_label (Entry.total_cost e))
  /\ update_consumption s (typed (Some (current_reading s)))
     = consumption_units (current_reading s - current_reading s)
  /\ (update_consumption s blank = consumption_units 0
      /\ save_entry s (float_of blank) d = (s, [warning "Invalid Input"])).
Proof.
  unfold update_consumption, calculate_bill.
  destruct (Qltb (b - current_reading s) 0) eqn:E.
  - rewrite (save_entry_rejected s b d E).
    repeat split; try discriminate; try reflexivity.
    destruct (Qltb (current_reading s - current_reading s) 0) eqn:E0;
      [|reflexivity].
    apply Qltb_lt in E0. exfalso. revert E0. apply Qle_not_lt.
    apply (proj1 (Qle_minus_iff _ _)). apply Qle_refl.
  - destruct (save_entry_accepted s b d E) as [Hh Hm].
    split; [|split; [|split; [|split]]].
    + split; [discriminate|]. intros Hs. rewrite Hs in Hm.
      destruct Hm as [Hm|[]]. discriminate Hm.
    + split; discriminate.
    + intros c [= <-]. exists (new_entry s b d). repeat split. exact Hh.
    + destruct (Qltb (current_reading s - current_reading s) 0) eqn:E0;
        [|reflexivity].
      apply Qltb_lt in E0. exfalso. revert E0. apply Qle_not_lt.
      apply (proj1 (Qle_minus_iff _ _)). apply Qle_refl.
    + split; reflexivity.
Qed.

(** ** The reset dialog *)

(** X11. [confirm_reset] touches the tracker and its files only when the
    dialog was accepted with the password "reset123", compared exactly, and
    the question answered Yes; then it does what [reset_data] does.  A
    wrong password is answered by a warning, a cancelled dialog by
    nothing. *)
Theorem confirm_reset_gate (s : tracker) (ok : bool) (password : string)
  (reply_yes : bool) :
  (ok = true /\ password = "reset123" /\ reply_yes = true ->
     confirm_reset s ok password reply_yes = reset_data s)
  /\ (~ (ok = true /\ password = "reset123" /\ reply_yes = true) ->
        fst (confirm_reset s ok password reply_yes) = s)
  /\ (ok = true -> password <> "reset123" ->
        confirm_reset s ok password reply_yes = (s, [warning "Incorrect Password"]))
  /\ (ok = false -> confirm_reset s ok password reply_yes = (s, []))
  /\ confirm_reset s true "RESET123" true = (s, [warning "Incorrect Password"]).
Proof.
  unfold confirm_reset. repeat split.
  - intros (-> & -> & ->). reflexivity.
  - intros H. destruct ok; [|reflexivity]. cbn [andb].
    destruct (String.eqb_spec password "reset123") as [E|E]; [|reflexivity].
    destruct reply_yes; [|reflexivity]. exfalso. apply H. auto.
  - intros -> H. apply String.eqb_neq in H. rewrite H. reflexivity.
  - intros ->. reflexivity.
Qed.

Lemma confirm_reset_gate_witness :
  fst (confirm_reset back_dated true "reset123" false) = back_dated.
Proof.
  refine (proj1 (proj2 (confirm_reset_gate back_dated true "reset123" false)) _).
  intros (_ & _ & H). discriminate H.
Defined.

(** ** Device registry: what every stored device satisfies *)

Lemma rstrip_head (c : ascii) (r : string) :
  isspace c = false -> exists r', rstrip (String c r) = String c r'.
Proof.
  intros H. simpl. destruct (rstrip r); [rewrite H|]; eexists; reflexivity.
Qed.

Lemma rstrip_cons (c : ascii) (r : string) :
  rstrip (String c r)
  = match rstrip r with
    | EmptyString => if isspace c then EmptyString else String c EmptyString
    | r' => String c r'
    end.
Proof. reflexivity. Qed.

Lemma rstrip_idem (s : string) : rstrip (rstrip s) = rstrip s.
Proof.
  induction s as [|c r IH]; [reflexivity|].
  rewrite (rstrip_cons c r).
  destruct (rstrip r) as [|c' r'] eqn:E.
  - destruct (isspace c) eqn:Hc; [reflexivity|].
    rewrite rstrip_cons. cbn [rstrip]. rewrite Hc. reflexivity.
  - rewrite rstrip_cons, IH. reflexivity.
Qed.

Lemma lstrip_head (s : string) :
  lstrip s = "" \/ exists c r, lstrip s = String c r /\ isspace c = false.
Proof.
  induction s as [|c r IH]; simpl; [left; reflexivity|].
  destruct (isspace c) eqn:Hc; [exact IH|]. right. exists c, r. auto.
Qed.

Lemma strip_idem (s : string) : strip (strip s) = strip s.
Proof.
  unfold strip.
  assert (H : lstrip (rstrip (lstrip s)) = rstrip (lstrip s)).
  { destruct (lstrip_head s) as [E|(c & r & E & Hc)]; rewrite E; [reflexivity|].
    destruct (rstrip_head c r Hc) as [r' E']. rewrite E'. simpl. rewrite Hc.
    reflexivity. }
  rewrite H. apply rstrip_idem.
Qed.

Lemma new_device_sound (text : string) (p h : Q) :
  String.eqb (strip text) "" = false ->
  Qle_bool p 0 || Qle_bool h 0 = false ->
  Qltb 24 h = false ->
  device_sound (new_device text p h).
Proof.
  intros Hn Hp Hh. apply orb_false_iff in Hp. destruct Hp as [Hp Hh0].
  unfold device_sound, new_device.
  cbn [Device.power_watts Device.hours_per_day Device.daily_kwh
       Device.monthly_kwh Device.name].
  split; [|split; [|split; [|split; [|split; [|split]]]]].
  - apply Qnot_le_lt. intros H. apply Qle_bool_iff in H. congruence.
  - apply Qnot_le_lt. intros H. apply Qle_bool_iff in H. congruence.
  - apply Qltb_ge. exact Hh.
  - reflexivity.
  - field.
  - apply String.eqb_neq. exact Hn.
  - apply strip_idem.
Qed.

(** What an action does to the device list. *)
Lemma perform_devices (s : tracker) (a : action) :
  devices_data (fst (perform s a)) = devices_data s
  \/ (exists text p h,
         devices_data (fst (perform s a))
         = (devices_data s ++ [new_device text p h])%list
         /\ device_sound (new_device text p h)
         /\ has_name_ci (strip text) (devices_data s) = false)
  \/ (exists n,
         devices_data (fst (perform s a))
         = filter (fun d => negb (String.eqb (Device.name d) n)) (devices_data s)).
Proof.
  destruct a as [input|input dt| |text power hours|n]; cbn [perform].
  - left. unfold set_initial_reading. destruct input as [x|]; [|reflexivity].
    destruct (Qltb x 0); [reflexivity|].
    destruct (initial_reading_writable (files s)); reflexivity.
  - left. unfold save_entry. destruct input as [b|]; [|reflexivity].
    destruct (Qltb (b - current_reading s) 0); [reflexivity|].
    unfold save_history. cbn.
    destruct (history_writable (files s)); reflexivity.
  - left. unfold reset_data.
    destruct (_ && negb (history_writable (files s))); [reflexivity|].
    destruct (_ && negb _); reflexivity.
  - unfold add_device.
    destruct power as [p|], hours as [h|]; try (left; reflexivity).
    destruct (String.eqb (strip text) "") eqn:E1; [left; reflexivity|].
    destruct (Qle_bool p 0 || Qle_bool h 0) eqn:E2; [left; reflexivity|].
    destruct (Qltb 24 h) eqn:E3; [left; reflexivity|].
    destruct (has_name_ci (strip text) (devices_data s)) eqn:E4;
      [left; reflexivity|].
    right. left. exists text, p, h.
    split; [|split; [apply new_device_sound; assumption|exact E4]].
    unfold save_devices. cbn. destruct (devices_writable (files s)); reflexivity.
  - right. right. exists n. apply remove_device_devices.
Qed.

Lemma init_devices (f : disk) : devices_data (fst (init f)) = stored_devices f.
Proof.
  unfold init, load_history, load_devices, stored_devices.
  destruct (history_file f), (devices_file f); reflexivity.
Qed.




(** ** Device registry: names *)

Lemma has_name_ci_folded (name : string) (ds : list Device.t) :
  has_name_ci name ds = false -> ~ In (lower name) (folded_names ds).
Proof.
  intros H Hin. unfold folded_names in Hin. apply in_map_iff in Hin.
  destruct Hin as [d [Hd Hin]].
  assert (Ht : has_name_ci name ds = true)
    by (apply has_name_ci_iff; exists d; auto).
  congruence.
Qed.

Lemma NoDup_snoc {A : Type} (l : list A) (x : A) :
  NoDup l -> ~ In x l -> NoDup (l ++ [x]).
Proof.
  intros Hl Hx. apply NoDup_app; [exact Hl|constructor; [intros []|constructor]|].
  intros y Hy [<-|[]]. contradiction.
Qed.

Lemma folded_names_filter (keep : Device.t -> bool) (ds : list Device.t) :
  NoDup (folded_names ds) -> NoDup (folded_names (filter keep ds)).
Proof.
  unfold folded_names.
  induction ds as [|d ds IH]; simpl; intros H; [constructor|].
  inversion H as [|? ? Hd Hr]; subst.
  destruct (keep d); [|apply IH; exact Hr].
  simpl. constructor; [|apply IH; exact Hr].
  intros Hin. apply Hd. apply in_map_iff in Hin. destruct Hin as [y [Hy Hin]].
  apply in_map_iff. exists y. split; [exact Hy|]. apply filter_In in Hin. tauto.
Qed.

Lemma reachable_names_unique (f : disk) (s : tracker) :
  NoDup (folded_names (stored_devices f)) -> reachable f s ->
  NoDup (folded_names (devices_data s)).
Proof.
  intros Hf. induction 1 as [|s a _ IH]; [rewrite init_devices; exact Hf|].
  destruct (perform_devices s a) as [E|[(text & p & h & E & _ & Hn)|[n E]]];
    rewrite E.
  - exact IH.
  - unfold folded_names. rewrite map_app. simpl.
    apply NoDup_snoc; [exact IH|]. apply has_name_ci_folded. exact Hn.
  - apply folded_names_filter. exact IH.
Qed.

(** X13. If no two devices found on disk at start have the same name up
    to case, no two devices of the session ever do; so a name typed in
    [add_device] that matches a listed device up to case and surrounding
    white space is always refused. *)
Theorem device_names_unique (f : disk) (s : tracker)
  (Hstored : NoDup (folded_names (stored_devices f)))
  (Hreach : reachable f s) :
  NoDup (folded_names (devices_data s))
  /\ (forall d text power hours,
         In d (devices_data s) -> lower (strip text) = lower (Device.name d) ->
         fst (add_device s text power hours) = s).
Proof.
  split; [apply (reachable_names_unique f s Hstored Hreach)|].
  intros d text power hours Hd Hl.
  destruct (add_device_duplicate s text power hours) as [title E].
  - apply has_name_ci_iff. exists d. auto.
  - rewrite E. reflexivity.
Qed.

Lemma device_names_unique_witness :
  NoDup (folded_names (devices_data two_devices)).
Proof.
  refine (proj1 (device_names_unique empty_disk two_devices _ _)).
  - constructor.
  - apply reach_step. apply reach_step. apply reach_init.
Defined.

(** ** Device registry: the estimate *)

Lemma add_device_accepted (s : tracker) (text : string) (p h : Q) :
  strip text <> "" -> (0 < p)%Q -> (0 < h)%Q -> (h <= 24)%Q ->
  has_name_ci (strip text) (devices_data s) = false ->
  devices_data (fst (add_device s text (Some p) (Some h)))
  = (devices_data s ++ [new_device text p h])%list
  /\ In (information "Success") (snd (add_device s text (Some p) (Some h)))
  /\ unit_cost (fst (add_device s text (Some p) (Some h))) = unit_cost s
  /\ history_data (fst (add_device s text (Some p) (Some h))) = history_data s.
Proof.
  intros Hn Hp Hh Hh24 Hd. unfold add_device.
  apply String.eqb_neq in Hn. rewrite Hn.
  assert (E1 : Qle_bool p 0 = false).
  { destruct (Qle_bool p 0) eqn:E; [|reflexivity].
    apply Qle_bool_iff in E. exfalso. exact (Qlt_not_le _ _ Hp E). }
  assert (E2 : Qle_bool h 0 = false).
  { destruct (Qle_bool h 0) eqn:E; [|reflexivity].
    apply Qle_bool_iff in E. exfalso. exact (Qlt_not_le _ _ Hh E). }
  rewrite E1, E2. cbn [orb]. apply Qltb_ge in Hh24. rewrite Hh24, Hd.
  unfold save_devices. cbn.
  destruct (devices_writable (files s)); cbn; repeat split; auto.
Qed.



(** ** Sums *)






(** ** What every stored entry satisfies *)









(** ** Total usage against the meter *)










(** * Statistics *)

(** ** Keyed dicts *)

Section KeyedDictFacts.
Context {K V : Type} (eqb : K -> K -> bool).
Hypothesis eqb_eq : forall a b, eqb a b = true <-> a = b.
Implicit Types (d : list (K * V)) (k : K) (v : V).










End KeyedDictFacts.




(** ** The shared loop *)

Section TallyFacts.
Context {K : Type} (eqb : K -> K -> bool).
Hypothesis eqb_eq : forall a b, eqb a b = true <-> a = b.
Variables (selected : Entry.t -> bool) (key : Entry.t -> K).






End TallyFacts.

(** ** Plotting a tally *)



Lemma chart_of_plotted {K : Type} (periods : list K) (units : list Q) :
  periods <> [] -> chart_of periods units = plotted periods units.
Proof. destruct periods; [congruence|reflexivity]. Qed.

Section PlotFacts.
Context {K : Type} (eqb : K -> K -> bool) (ltb : K -> K -> bool).

Lemma plot_units_all (D : list (K * bucket)) (g : K -> bucket) (periods : list K) :
  (forall k, In k periods -> kdict_get eqb k D = Some (g k)) ->
  plot_units eqb D periods = Some (map (fun k => bucket_units (g k)) periods).
Proof.
  induction periods as [|k r IH]; intros H; simpl; [reflexivity|].
  rewrite (H k (or_introl eq_refl)), IH; [reflexivity|].
  intros k' Hk'. apply H. right. exact Hk'.
Qed.

(** The graph of a dict whose values are known, over keys handed in. *)
Lemma update_graph_keys (D : list (K * bucket)) (g : K -> bucket) (keys : list K) :
  (D = [] <-> keys = []) ->
  (forall k, In k keys -> kdict_get eqb k D = Some (g k)) ->
  update_graph eqb ltb D (Some keys)
  = Some (chart_of keys (map (fun k => bucket_units (g k)) keys)).
Proof.
  intros Hnil Hget. unfold update_graph.
  destruct D as [|kv D'].
  - rewrite (proj1 Hnil eq_refl). reflexivity.
  - rewrite (plot_units_all _ g keys Hget), chart_of_plotted; [reflexivity|].
    intros E. apply Hnil in E. discriminate.
Qed.

End PlotFacts.


(** ** Sums over a partition *)



Section Partition.
Context {K : Type} (eqb : K -> K -> bool).
Hypothesis eqb_eq : forall a b, eqb a b = true <-> a = b.
Variables (selected : Entry.t -> bool) (key : Entry.t -> K) (f : Entry.t -> Q).


End Partition.


(** ** Yearly statistics *)



(** ** Graphs of relabelled dicts *)


Section Relabel.
Context {A : Type} (label : A -> string) (val : A -> bucket).


End Relabel.

(** ** Monthly statistics *)








(** ** Daily statistics *)













(** ** The weekly graph *)






(** ** Analytics *)

Lemma str_not_empty (y : Z) : String.eqb (str y) "" = false.
Proof.
  apply String.eqb_neq. intros E. pose proof (int_str y) as H.
  rewrite E in H. discriminate H.
Qed.

(** X22. [update_analytics] shows "No data to display" on an empty ledger
    whatever the period and the year text, even an unreadable one; on a
    ledger with entries an empty year text leaves the graph as it is, the
    year text that [str] makes of a year selects that year for the daily,
    weekly and monthly statistics, the yearly statistics ignore it, and an
    unknown period leaves the graph as it is. *)
Theorem update_analytics_dispatch (s : tracker) (period year_str : string) (y : Z) :
  (history_data s = [] ->
     update_analytics s period year_str = Some (graph_of_labels no_data_to_display))
  /\ (history_data s <> [] ->
        update_analytics s period "" = Some graph_unchanged
        /\ update_analytics s "Daily" (str y)
           = option_map graph_of_labels (show_daily_stats s y)
        /\ update_analytics s "Weekly" (str y)
           = option_map graph_of_labels (show_weekly_graph s y)
        /\ update_analytics s "Monthly" (str y)
           = option_map graph_of_labels (show_monthly_stats s y)
        /\ update_analytics s "Yearly" (str y)
           = option_map graph_of_years (show_yearly_stats s)
        /\ (period <> "Daily" -> period <> "Weekly" -> period <> "Monthly" ->
            period <> "Yearly" ->
            update_analytics s period (str y) = Some graph_unchanged)).
Proof.
  unfold update_analytics. split.
  - intros ->. reflexivity.
  - intros Hne. destruct (history_data s) as [|e l]; [congruence|].
    rewrite (str_not_empty y), (int_str y).
    repeat split. intros H1 H2 H3 H4.
    apply String.eqb_neq in H1. apply String.eqb_neq in H2.
    apply String.eqb_neq in H3. apply String.eqb_neq in H4.
    rewrite H1, H2, H3, H4. reflexivity.
Qed.

Lemma update_analytics_dispatch_witness :
  update_analytics weekly_example "Monthly" (str 2024)
  = option_map graph_of_labels (show_monthly_stats weekly_example 2024).
Proof.
  refine (proj1 (proj2 (proj2 (proj2 (proj2
            (update_analytics_dispatch weekly_example "Monthly" "" 2024) _))))).
  vm_compute. discriminate.
Defined.

(** ** Keys of the weekly statistics *)

(** X23. The key that the first loop of [show_weekly_stats] writes for a
    date is read back by the second loop as the year, month and week of
    that date, when the year is not negative, the month from 1 to 12 and
    the day from 1 to 31. *)
Theorem sort_key_round_trip (d : QDate)
  (Hy : 0 <= year d) (Hm : 1 <= month d <= 12) (Hd : 1 <= day d <= 31) :
  parse_key (sort_key d) = Some (year d, month d, week_of_month d)
  /\ 1 <= week_of_month d <= 5.
Proof.
  split.
  - rewrite sort_key_eq.
    apply (key_parse (year d) (month_week d) Hy (month_week_valid d Hm Hd)).
  - unfold week_of_month. Z.div_mod_to_equations. lia.
Qed.

Lemma sort_key_round_trip_witness :
  parse_key (sort_key (mkDate 2024 1 31)) = Some (2024, 1, 5).
Proof.
  refine (proj1 (sort_key_round_trip (mkDate 2024 1 31) _ _ _)); cbn; lia.
Defined.

(** ** Removing devices *)

Lemma filter_other_names (n : string) (ds : list Device.t) :
  ~ In n (map Device.name ds) ->
  filter (fun d => negb (String.eqb (Device.name d) n)) ds = ds.
Proof.
  intros H. induction ds as [|d ds IH]; simpl; [reflexivity|].
  destruct (String.eqb_spec (Device.name d) n) as [E|E].
  - exfalso. apply H. left. exact E.
  - simpl. rewrite IH; [reflexivity|]. intros Hin. apply H. right. exact Hin.
Qed.

Lemma has_name_ci_removed (d : Device.t) (ds : list Device.t) :
  NoDup (folded_names ds) -> In d ds ->
  has_name_ci (Device.name d)
    (filter (fun x => negb (String.eqb (Device.name x) (Device.name d))) ds)
  = false.
Proof.
  intros Hnd Hd.
  destruct (has_name_ci _ _) eqn:E; [|reflexivity]. exfalso.
  apply has_name_ci_iff in E. destruct E as [x [Hx Hl]].
  apply filter_In in Hx. destruct Hx as [Hx Hne].
  apply negb_true_iff, String.eqb_neq in Hne. apply Hne. clear Hne.
  unfold folded_names in Hnd.
  induction ds as [|y ds IH]; [destruct Hd|].
  inversion Hnd as [|? ? Hy Hr]; subst.
  destruct Hd as [->|Hd], Hx as [->|Hx]; try reflexivity.
  - exfalso. apply Hy. rewrite <- Hl. apply (in_map (fun d => lower (Device.name d))).
    exact Hx.
  - exfalso. apply Hy. rewrite Hl. apply (in_map (fun d => lower (Device.name d))).
    exact Hd.
  - apply IH; assumption.
Qed.

(** X24. [remove_device] reports success whether or not a device has the
    given name: with no device of exactly that name the list stays as it
    is.  In a registry whose names differ up to case, removing a listed
    device leaves no device of that name up to case, so the same name can
    be added again with new figures. *)
Theorem remove_then_add_again (s : tracker) (d : Device.t) (n : string) (p h : Q) :
  In (information "Success") (snd (remove_device s n))
  /\ (~ In n (map Device.name (devices_data s)) ->
        devices_data (fst (remove_device s n)) = devices_data s)
  /\ (NoDup (folded_names (devices_data s)) -> In d (devices_data s) ->
      strip (Device.name d) = Device.name d -> Device.name d <> "" ->
      (0 < p)%Q -> (0 < h)%Q -> (h <= 24)%Q ->
      let s1 := fst (remove_device s (Device.name d)) in
      ~ In d (devices_data s1)
      /\ devices_data (fst (add_device s1 (Device.name d) (Some p) (Some h)))
         = (devices_data s1 ++ [new_device (Device.name d) p h])%list).
Proof.
  split; [|split].
  - unfold remove_device. destruct (save_devices _) as [s2 m]. cbn [snd].
    apply in_or_app. right. left. reflexivity.
  - intros H. rewrite remove_device_devices. apply filter_other_names. exact H.
  - intros Hnd Hd Hs Hne Hp Hh Hh24 s1.
    assert (E1 : devices_data s1
                 = filter (fun x => negb (String.eqb (Device.name x) (Device.name d)))
                          (devices_data s))
      by apply remove_device_devices.
    split.
    + rewrite E1. intros Hin. apply filter_In in Hin. destruct Hin as [_ Hin].
      rewrite String.eqb_refl in Hin. discriminate Hin.
    + apply add_device_accepted; try assumption.
      * rewrite Hs. exact Hne.
      * rewrite Hs, E1. apply has_name_ci_removed; assumption.
Qed.

Lemma remove_then_add_again_witness :
  devices_data (fst (remove_device with_fridge "fridge")) = devices_data with_fridge.
Proof.
  refine (proj1 (proj2 (remove_then_add_again with_fridge
                          (new_device "Fridge" 200%Q 5%Q) "fridge" 1%Q 1%Q)) _).
  vm_compute. intros [H|[]]. discriminate H.
Defined.

(** ** Filters against each other *)



